(** * presence: the per-request detection and annotation handler

    A shallow embedding of [handleRequest] of [main.go].  The handler reads
    one frame from the webcam, runs the Haar face classifier, searches every
    accepted face for eyes, runs the LBP face classifier, draws rectangles
    and size labels onto the frame, and streams the frame as JPEG to the
    HTTP response.

    The vision library (gocv), the image codecs and the HTTP response writer
    are collaborators outside the repository.  What they return during one
    request is collected in a record [World]; every call the handler makes
    on them is recorded, in program order, in a list of [Call]s.  A [gocv.Mat]
    is kept as the term that built it, so that the pixel data handed to a
    detector or to the encoder can be inspected.

    Resource management ([NewMat], the deferred [Close] calls) is not
    modelled. *)

From Stdlib Require Import ZArith QArith Lia Ascii String.
From stdpp Require Import base list strings pretty gmap.

Local Open Scope Z_scope.

(** ** Go's [int] on a 64-bit platform *)

Module goint.

Definition min_int : Z := - 2 ^ 63.
Definition max_int : Z := 2 ^ 63 - 1.

(** Two's complement wrap-around of a mathematical integer. *)
Definition wrap (z : Z) : Z := (z + 2 ^ 63) mod 2 ^ 64 - 2 ^ 63.

Definition add (a b : Z) : Z := wrap (a + b).
Definition sub (a b : Z) : Z := wrap (a - b).

Definition in_range (z : Z) : Prop := min_int <= z <= max_int.

End goint.

(** ** Package [image]: points and rectangles *)

Module image.

Record Point := Pt { X : Z; Y : Z }.

Record Rectangle := mkRect { Min : Point; Max : Point }.

(** [func (r Rectangle) Size() Point] *)
Definition Size (r : Rectangle) : Point :=
  Pt (goint.sub (X (Max r)) (X (Min r))) (goint.sub (Y (Max r)) (Y (Min r))).

(** A decoded [image.Image]. *)
Record Image := mkImage { Bounds : Rectangle; Pix : list Byte.byte }.

End image.

Import image.

(** ** Package [image/color] *)

Module color.

Record RGBA := mk { R : Z; G : Z; B : Z; A : Z }.

End color.

(** ** Package [gocv] *)

Module gocv.

(** A frame as delivered by the capture device: BGR pixel data. *)
Record Frame := mkFrame { frame_cols : Z; frame_rows : Z; frame_data : list Byte.byte }.

Inductive ColorConversionCode := ColorBGRToGray.

Inductive HersheyFont := FontHersheyPlain.

(** A [Mat] is represented by the operations that produced its pixels. *)
Inductive Mat :=
| NewMat
| Captured (f : Frame)
| CvtColor (src : Mat) (code : ColorConversionCode)
| Rectangle (img : Mat) (r : image.Rectangle) (c : color.RGBA) (thickness : Z)
| PutText (img : Mat) (text : string) (org : Point) (fontFace : HersheyFont)
          (fontScale : Q) (c : color.RGBA) (thickness : Z)
| Region (m : Mat) (r : image.Rectangle).

(** Number of channels of a [Mat]: the device delivers three (BGR),
    [ColorBGRToGray] leaves one, drawing and taking a region keep the
    channels of the [Mat] they work on. *)
Fixpoint Channels (m : Mat) : Z :=
  match m with
  | NewMat => 0
  | Captured _ => 3
  | CvtColor _ ColorBGRToGray => 1
  | Rectangle img _ _ _ => Channels img
  | PutText img _ _ _ _ _ _ => Channels img
  | Region m' _ => Channels m'
  end.

(** Width and height of a [Mat]: those of the captured frame; a region of
    [r] is [r.Size().X] wide and [r.Size().Y] high. *)
Fixpoint Cols (m : Mat) : Z :=
  match m with
  | NewMat => 0
  | Captured f => frame_cols f
  | CvtColor src _ => Cols src
  | Rectangle img _ _ _ => Cols img
  | PutText img _ _ _ _ _ _ => Cols img
  | Region _ r => X (Size r)
  end.

Fixpoint Rows (m : Mat) : Z :=
  match m with
  | NewMat => 0
  | Captured f => frame_rows f
  | CvtColor src _ => Rows src
  | Rectangle img _ _ _ => Rows img
  | PutText img _ _ _ _ _ _ => Rows img
  | Region _ r => Y (Size r)
  end.

(** A classifier is known by the cascade file loaded into it. *)
Inductive CascadeClassifier := Loaded (file : string).

End gocv.

(** ** Package [image/jpeg] *)

Module jpeg.

Record Options := mkOptions { Quality : Z }.

End jpeg.

(** ** The collaborators during one request *)

Definition error := string.

Inductive result (T : Type) :=
| Ok (v : T)
| Err (e : error).

Arguments Ok {T} v.
Arguments Err {T} e.

Record World := mkWorld {
  (** [webcam.Read(&imgMat)]: the frame stored into [imgMat], or [None]
      when the call returns [false]. *)
  webcam_Read : option gocv.Frame;
  (** [c.DetectMultiScale(img)] for each of the three classifiers. *)
  DetectMultiScale : gocv.CascadeClassifier -> gocv.Mat -> list Rectangle;
  (** [gocv.IMEncode(ext, img)]. *)
  IMEncode : string -> gocv.Mat -> result (list Byte.byte);
  (** [image.Decode(bytes.NewReader(b))]. *)
  image_Decode : list Byte.byte -> result Image;
  (** [jpeg.Encode(w, m, o)]: the bytes it wrote to [w] before it returned,
      and the error it returned, if any. *)
  jpeg_Encode : Image -> option jpeg.Options -> list Byte.byte * option error
}.

(** ** Calls made by the handler, in program order *)

Inductive Call :=
| CallRead
| CallCvtColor (src : gocv.Mat) (code : gocv.ColorConversionCode)
| CallDetectMultiScale (c : gocv.CascadeClassifier) (img : gocv.Mat)
| CallRectangle (r : Rectangle) (c : color.RGBA) (thickness : Z)
| CallPutText (text : string) (org : Point) (fontFace : gocv.HersheyFont)
              (fontScale : Q) (c : color.RGBA) (thickness : Z)
| CallRegion (r : Rectangle)
| CallIMEncode (ext : string) (img : gocv.Mat)
| CallDecode (b : list Byte.byte)
| CallHeaderSet (key value : string)
| CallJpegEncode (m : Image) (o : option jpeg.Options)
| CallPrint (s : string).

(** ** Package-level variables of [main.go] *)

Definition deviceID : Z := 0.

(** The three classifiers, as [run] loads them. *)
Definition classifierPath : string := "/opt/homebrew/Cellar/opencv/4.9.0_4/share/opencv4".
Definition haarClassifierPath : string := classifierPath +:+ "/haarcascades".
Definition lbpClassifierPath : string := classifierPath +:+ "/lbpcascades".

Definition haarFaceCascade : gocv.CascadeClassifier :=
  gocv.Loaded (haarClassifierPath +:+ "/haarcascade_frontalface_default.xml").
Definition eyeCascade : gocv.CascadeClassifier :=
  gocv.Loaded (haarClassifierPath +:+ "/haarcascade_eye.xml").
Definition lbpFaceCascade : gocv.CascadeClassifier :=
  gocv.Loaded (lbpClassifierPath +:+ "/lbpcascade_frontalface_improved.xml").

Definition font : gocv.HersheyFont := gocv.FontHersheyPlain.
Definition minFaceSize : Z := 200.
Definition maxFaceSize : Z := 600.

(** The three colour literals of the handler. *)
Definition green : color.RGBA := color.mk 0 255 0 0.
Definition blue : color.RGBA := color.mk 0 0 255 0.
Definition red : color.RGBA := color.mk 255 0 0 0.

(** ** The HTTP response *)

Record Response := mkResponse {
  Header : gmap string (list string);
  Body : list Byte.byte
}.

Definition emptyResponse : Response := mkResponse ∅ [].

(** ** [handleRequest] *)

Definition newline : string := String (Ascii.ascii_of_nat 10) EmptyString.

(** [fmt.Sprintf("Size: %dx%d", r.Size().X, r.Size().Y)] *)
Definition sizeText (r : Rectangle) : string :=
  "Size: " +:+ pretty (X (Size r)) +:+ "x" +:+ pretty (Y (Size r)).

(** [image.Pt(r.Min.X, r.Min.Y-10)] *)
Definition textOrg (r : Rectangle) : Point :=
  Pt (X (Min r)) (goint.sub (Y (Min r)) 10).

(** The condition of the [if] at the head of the Haar loop body. *)
Definition faceSizeOk (r : Rectangle) : bool :=
  (minFaceSize <? X (Size r)) && (X (Size r) <? maxFaceSize).

(** The four compound assignments on [eyeRect], one after the other. *)
Definition offsetEye (r eyeRect : Rectangle) : Rectangle :=
  let eyeRect := mkRect (Pt (goint.add (X (Min eyeRect)) (X (Min r))) (Y (Min eyeRect)))
                        (Max eyeRect) in
  let eyeRect := mkRect (Pt (X (Min eyeRect)) (goint.add (Y (Min eyeRect)) (Y (Min r))))
                        (Max eyeRect) in
  let eyeRect := mkRect (Min eyeRect)
                        (Pt (goint.add (X (Max eyeRect)) (X (Min r))) (Y (Max eyeRect))) in
  let eyeRect := mkRect (Min eyeRect)
                        (Pt (X (Max eyeRect)) (goint.add (Y (Max eyeRect)) (Y (Min r)))) in
  eyeRect.

(** [for _, eyeRect := range eyes { ... }] for the face [r]. *)
Fixpoint eyeLoop (r : Rectangle) (eyes : list Rectangle) (imgMat : gocv.Mat)
  : gocv.Mat * list Call :=
  match eyes with
  | [] => (imgMat, [])
  | eyeRect :: eyes' =>
      let eyeRect := offsetEye r eyeRect in
      let imgMat := gocv.Rectangle imgMat eyeRect blue 2 in
      let '(imgMat, calls) := eyeLoop r eyes' imgMat in
      (imgMat, CallRectangle eyeRect blue 2 :: calls)
  end.

(** The body of the Haar loop for one candidate [r]. *)
Definition haarBody (w : World) (r : Rectangle) (imgMat : gocv.Mat)
  : gocv.Mat * list Call :=
  if faceSizeOk r then
    let imgMat := gocv.Rectangle imgMat r green 2 in
    let imgMat := gocv.PutText imgMat (sizeText r) (textOrg r) font 1 green 2 in
    let roiMat := gocv.Region imgMat r in
    let eyes := DetectMultiScale w eyeCascade roiMat in
    let '(imgMat, calls) := eyeLoop r eyes imgMat in
    (imgMat,
     [CallRectangle r green 2;
      CallPutText (sizeText r) (textOrg r) font 1 green 2;
      CallRegion r;
      CallDetectMultiScale eyeCascade roiMat] ++ calls)
  else (imgMat, []).

Fixpoint haarLoop (w : World) (rects : list Rectangle) (imgMat : gocv.Mat)
  : gocv.Mat * list Call :=
  match rects with
  | [] => (imgMat, [])
  | r :: rects' =>
      let '(imgMat, calls) := haarBody w r imgMat in
      let '(imgMat, calls') := haarLoop w rects' imgMat in
      (imgMat, calls ++ calls')
  end.

(** The body of the LBP loop for one box [r]. *)
Definition lbpBody (r : Rectangle) (imgMat : gocv.Mat) : gocv.Mat * list Call :=
  let imgMat := gocv.Rectangle imgMat r red 2 in
  let imgMat := gocv.PutText imgMat (sizeText r) (textOrg r) font 1 red 2 in
  (imgMat,
   [CallRectangle r red 2;
    CallPutText (sizeText r) (textOrg r) font 1 red 2]).

Fixpoint lbpLoop (rects : list Rectangle) (imgMat : gocv.Mat)
  : gocv.Mat * list Call :=
  match rects with
  | [] => (imgMat, [])
  | r :: rects' =>
      let '(imgMat, calls) := lbpBody r imgMat in
      let '(imgMat, calls') := lbpLoop rects' imgMat in
      (imgMat, calls ++ calls')
  end.

(** From [gocv.IMEncode] to the end of the handler. *)
Definition respond (w : World) (imgMat : gocv.Mat) : Response * list Call :=
  match IMEncode w ".jpg" imgMat with
  | Err err =>
      (emptyResponse,
       [CallIMEncode ".jpg" imgMat;
        CallPrint ("Error encoding frame: " +:+ err +:+ newline)])
  | Ok buf =>
      let bufSlice := buf in
      match image_Decode w bufSlice with
      | Err err =>
          (emptyResponse,
           [CallIMEncode ".jpg" imgMat;
            CallDecode bufSlice;
            CallPrint ("Error decoding frame: " +:+ err +:+ newline)])
      | Ok out =>
          let header := <["Content-Type" := ["image/jpeg"]]> (Header emptyResponse) in
          let '(written, err) := jpeg_Encode w out None in
          (mkResponse header (Body emptyResponse ++ written),
           [CallIMEncode ".jpg" imgMat;
            CallDecode bufSlice;
            CallHeaderSet "Content-Type" "image/jpeg";
            CallJpegEncode out None] ++
           match err with
           | Some e => [CallPrint ("Error writing image to response: " +:+ e +:+ newline)]
           | None => []
           end)
      end
  end.

(** The grayscale copy made after a successful read of frame [f]. *)
Definition grayOf (f : gocv.Frame) : gocv.Mat :=
  gocv.CvtColor (gocv.Captured f) gocv.ColorBGRToGray.

(** The detection and annotation part of the handler, on the frame [f]. *)
Definition detectAndAnnotate (w : World) (f : gocv.Frame) : gocv.Mat * list Call :=
  let imgMat := gocv.Captured f in
  let gray := gocv.CvtColor imgMat gocv.ColorBGRToGray in
  let rects := DetectMultiScale w haarFaceCascade gray in
  let '(imgMat, haarCalls) := haarLoop w rects imgMat in
  let rects := DetectMultiScale w lbpFaceCascade gray in
  let '(imgMat', lbpCalls) := lbpLoop rects imgMat in
  (imgMat',
   [CallCvtColor (gocv.Captured f) gocv.ColorBGRToGray;
    CallDetectMultiScale haarFaceCascade gray] ++ haarCalls ++
   [CallDetectMultiScale lbpFaceCascade gray] ++ lbpCalls).

Definition handleRequest (w : World) : Response * list Call :=
  match webcam_Read w with
  | None =>
      (emptyResponse,
       [CallRead; CallPrint ("Device closed: " +:+ pretty deviceID +:+ newline)])
  | Some f =>
      let '(imgMat, calls) := detectAndAnnotate w f in
      let '(resp, calls') := respond w imgMat in
      (resp, CallRead :: calls ++ calls')
  end.

(** The calls of one request, and its response. *)
Definition calls (w : World) : list Call := snd (handleRequest w).
Definition response (w : World) : Response := fst (handleRequest w).

(** ** Auxiliary definitions for the statements *)

(** The call drawing the eye box [e] found in the face [r]. *)
Definition eyeCall (r e : Rectangle) : Call := CallRectangle (offsetEye r e) blue 2.

(** The two calls of the LBP loop body. *)
Definition lbpCalls (r : Rectangle) : list Call :=
  [CallRectangle r red 2; CallPutText (sizeText r) (textOrg r) font 1 red 2].

(** The frame after both drawing passes: the [Mat] given to the encoder. *)
Definition annotated (w : World) (f : gocv.Frame) : gocv.Mat :=
  fst (detectAndAnnotate w f).

(** Calls on the vision library, as opposed to encoding and responding. *)
Definition isVisionCall (c : Call) : bool :=
  match c with
  | CallCvtColor _ _ | CallDetectMultiScale _ _ | CallRectangle _ _ _
  | CallPutText _ _ _ _ _ _ | CallRegion _ => true
  | _ => false
  end.


(** [drawnOn base m]: the [Mat] [m] is [base] with rectangles and texts drawn
    onto it. *)
Inductive drawnOn (base : gocv.Mat) : gocv.Mat -> Prop :=
| drawn_base : drawnOn base base
| drawn_Rectangle m r c th :
    drawnOn base m -> drawnOn base (gocv.Rectangle m r c th)
| drawn_PutText m text org fnt scale c th :
    drawnOn base m -> drawnOn base (gocv.PutText m text org fnt scale c th).

(** The calls that only the Haar loop body makes for the candidate [r]. *)
Inductive haarCallFor (r : Rectangle) : Call -> Prop :=
| haarCallRectangle : haarCallFor r (CallRectangle r green 2)
| haarCallPutText : haarCallFor r (CallPutText (sizeText r) (textOrg r) font 1 green 2)
| haarCallRegion : haarCallFor r (CallRegion r)
| haarCallDetect m : haarCallFor r (CallDetectMultiScale eyeCascade (gocv.Region m r)).

(** The call [c] is directly followed by the call [c'] in [l]. *)
Definition followedBy (c c' : Call) (l : list Call) : Prop :=
  exists pre post, l = pre ++ c :: c' :: post.

(** ** Boxes inside boxes *)

(** The box [a] lies inside the box [b]. *)
Definition inside (a b : Rectangle) : Prop :=
  X (Min b) <= X (Min a) /\ Y (Min b) <= Y (Min a) /\
  X (Max a) <= X (Max b) /\ Y (Max a) <= Y (Max b).

(** A rectangle of [int] coordinates with [Min] not after [Max], as
    [image.Rect] builds them. *)
Definition wellFormed (r : Rectangle) : Prop :=
  goint.in_range (X (Min r)) /\ goint.in_range (Y (Min r)) /\
  goint.in_range (X (Max r)) /\ goint.in_range (Y (Max r)) /\
  X (Min r) <= X (Max r) /\ Y (Min r) <= Y (Max r).

(** The box [e], in the coordinates of the [Mat] [m], lies within [m]. *)
Definition withinMat (e : Rectangle) (m : gocv.Mat) : Prop :=
  0 <= X (Min e) <= X (Max e) /\ X (Max e) <= gocv.Cols m /\
  0 <= Y (Min e) <= Y (Max e) /\ Y (Max e) <= gocv.Rows m.

(** The whole frame as a box. *)
Definition frameBounds (f : gocv.Frame) : Rectangle :=
  mkRect (Pt 0 0) (Pt (gocv.frame_cols f) (gocv.frame_rows f)).

(** ** Two requests served at the same time

    [net/http] runs every invocation of the handler in a goroutine of its
    own, and [webcam] is a package-level variable shared by all of them.  A
    call on a collaborator takes time: it is invoked and it returns later.
    The handler takes no lock and waits on no channel, so nothing orders
    the steps of one goroutine with respect to those of another: at every
    moment the scheduler may run the next step of either. *)

Inductive Goroutine := G1 | G2.

Inductive Event :=
| Invoke (g : Goroutine) (c : Call)
| Return (g : Goroutine) (c : Call).

(** The steps of a goroutine that makes the calls [cs]. *)
Definition steps (g : Goroutine) (cs : list Call) : list Event :=
  flat_map (fun c => [Invoke g c; Return g c]) cs.

(** The steps each of the two goroutines has still to take. *)
Record Pool := mkPool { todo1 : list Event; todo2 : list Event }.

Inductive step : Pool -> Event -> Pool -> Prop :=
| step_G1 e t1 t2 : step (mkPool (e :: t1) t2) e (mkPool t1 t2)
| step_G2 e t1 t2 : step (mkPool t1 (e :: t2)) e (mkPool t1 t2).

(** [runs p h]: the pool [p] can run to completion with the history [h]. *)
Inductive runs : Pool -> list Event -> Prop :=
| runs_done : runs (mkPool [] []) []
| runs_step p e p' h : step p e p' -> runs p' h -> runs p (e :: h).

(** Two invocations of [handleRequest], one per goroutine. *)
Definition concurrentRequests (w1 w2 : World) : Pool :=
  mkPool (steps G1 (calls w1)) (steps G2 (calls w2)).

(** The reads of a history are serialized when no [webcam.Read] is invoked
    while another one has not returned yet.  [reading] tells whether a read
    is in progress. *)
Fixpoint readsSerialized (reading : bool) (h : list Event) : bool :=
  match h with
  | [] => true
  | Invoke _ CallRead :: h' => if reading then false else readsSerialized true h'
  | Return _ CallRead :: h' => readsSerialized false h'
  | _ :: h' => readsSerialized reading h'
  end.

(** A string without the letter x. *)
Fixpoint noX (s : string) : Prop :=
  match s with
  | EmptyString => True
  | String c s' => c <> "x"%char /\ noX s'
  end.

(** ** Sample requests *)

#[global] Instance CascadeClassifier_eq_dec : EqDecision gocv.CascadeClassifier.
Proof. solve_decision. Defined.


Definition box (x0 y0 x1 y1 : Z) : Rectangle := mkRect (Pt x0 y0) (Pt x1 y1).

Definition frame0 : gocv.Frame := gocv.mkFrame 1280 720 [].

(** A face 250 wide, a box exactly [minFaceSize] wide and a box exactly
    [maxFaceSize] wide from the Haar classifier; one eye in every face
    region; two boxes from the LBP classifier, one overlapping the Haar face
    and one only 20 wide; working codecs and response writer. *)
Definition face250 : Rectangle := box 100 100 350 350.
Definition face200 : Rectangle := box 0 0 200 200.
Definition face600 : Rectangle := box 10 10 610 610.
Definition eyeLocal : Rectangle := box 50 60 90 100.
Definition lbp270 : Rectangle := box 90 95 360 370.
Definition lbp20 : Rectangle := box 5 5 25 25.

Definition sampleDetect (c : gocv.CascadeClassifier) (img : gocv.Mat) : list Rectangle :=
  if decide (c = haarFaceCascade) then [face250; face200; face600]
  else if decide (c = eyeCascade) then [eyeLocal]
  else if decide (c = lbpFaceCascade) then [lbp270; lbp20]
  else [].

Definition sampleEncoded : list Byte.byte := [Byte.xff; Byte.xd8; Byte.x01; Byte.xff; Byte.xd9].
Definition sampleImage : Image := mkImage (box 0 0 1280 720) [Byte.x01].
Definition sampleReencoded : list Byte.byte :=
  [Byte.xff; Byte.xd8; Byte.x02; Byte.x03; Byte.xff; Byte.xd9].

Definition sampleWorld : World :=
  mkWorld (Some frame0) sampleDetect
          (fun _ _ => Ok sampleEncoded)
          (fun _ => Ok sampleImage)
          (fun _ _ => (sampleReencoded, None)).

(** The device is closed: [webcam.Read] returns [false]. *)
Definition closedWorld : World :=
  mkWorld None sampleDetect
          (fun _ _ => Ok sampleEncoded)
          (fun _ => Ok sampleImage)
          (fun _ _ => (sampleReencoded, None)).

(** The response writer fails while [jpeg.Encode] is streaming into it: two
    bytes of the image have been written when the error is returned. *)
Definition brokenPipe : error := "write tcp 127.0.0.1:8888: broken pipe".

Definition truncatedWorld : World :=
  mkWorld (Some frame0) sampleDetect
          (fun _ _ => Ok sampleEncoded)
          (fun _ => Ok sampleImage)
          (fun _ _ => ([Byte.xff; Byte.xd8], Some brokenPipe)).

(** [gocv.IMEncode] fails. *)
Definition encodeFailWorld : World :=
  mkWorld (Some frame0) sampleDetect
          (fun _ _ => Err "OpenCV: encode failed")
          (fun _ => Ok sampleImage)
          (fun _ _ => (sampleReencoded, None)).

(** [image.Decode] fails on the encoded buffer. *)
Definition decodeFailWorld : World :=
  mkWorld (Some frame0) sampleDetect
          (fun _ _ => Ok sampleEncoded)
          (fun _ => Err "image: unknown format")
          (fun _ _ => (sampleReencoded, None)).

(** One of the two encoders of the annotated frame returns an error:
    [gocv.IMEncode], or [jpeg.Encode] on the decoded frame. *)
Definition encodingFails (w : World) (f : gocv.Frame) : Prop :=
  (exists e, IMEncode w ".jpg" (annotated w f) = Err e) \/
  (exists buf out e,
     IMEncode w ".jpg" (annotated w f) = Ok buf /\
     image_Decode w buf = Ok out /\
     snd (jpeg_Encode w out None) = Some e).

(** * Start-up: [run] and [main]

    [run] opens the capture device, creates and loads the three
    classifiers, registers the handler and serves until the server stops.
    The device, the file system behind [Load] and the HTTP server are
    collaborators; what they answer is collected in a record [Boot], and
    the calls made on them are recorded in program order.  A [defer] puts
    its call on a stack that is run, last in first out, when [run]
    returns. *)

(** ** Errors with a cause, as [fmt.Errorf] builds them *)

(** The errors [run] returns: one built by [fmt.Errorf], with its text and
    the error it wraps, if any; or the error of the server, passed on as it
    is. *)
Inductive goerror :=
| Formatted (text : string) (wraps : option error)
| FromServer (e : error).

(** [fmt.Errorf(prefix + "%w", operand)], [prefix] holding no verb.  An
    operand that is an error is printed with its text and wrapped; a [nil]
    operand is printed as a bad verb and nothing is wrapped. *)
Definition Errorf_w (prefix : string) (operand : option error) : goerror :=
  match operand with
  | Some e => Formatted (prefix +:+ e) (Some e)
  | None => Formatted (prefix +:+ "%!w(<nil>)") None
  end.

(** [filepath.Join(dir, name)] for a clean directory and a plain file
    name. *)
Definition filepath_Join (dir name : string) : string := dir +:+ "/" +:+ name.

(** ** The package-level variables *)

Inductive VideoCapture := Device (id : Z).

(** The state of one of the three classifier variables: never assigned,
    holding the empty classifier of [gocv.NewCascadeClassifier], or holding
    a classifier into which a cascade file was loaded. *)
Inductive ClassifierVar :=
| Unassigned
| Empty
| Holding (c : gocv.CascadeClassifier).

Module vars.

Record Globals := mk {
  webcam : option VideoCapture;
  err : option error;
  haarFaceCascade : ClassifierVar;
  eyeCascade : ClassifierVar;
  lbpFaceCascade : ClassifierVar
}.

(** The variables before [run]. *)
Definition initial : Globals := mk None None Unassigned Unassigned Unassigned.

End vars.

(** The three classifier variables, by name. *)
Inductive ClassifierName := HaarFace | Eye | LbpFace.

(** What [run] acquires and has to release. *)
Inductive Resource :=
| TheWebcam
| TheClassifier (n : ClassifierName).

(** ** The collaborators of [run] *)

Record Boot := mkBoot {
  (** [gocv.OpenVideoCapture(id)] *)
  OpenVideoCapture : Z -> result VideoCapture;
  (** [c.Load(file)] *)
  Load : string -> bool;
  (** [http.ListenAndServe(addr, nil)]: the error with which the server
      stops, [None] for [nil]. *)
  ListenAndServe : string -> option error
}.

Inductive BootCall :=
| CallOpenVideoCapture (id : Z)
| CallNewCascadeClassifier (n : ClassifierName)
| CallLoad (n : ClassifierName) (file : string)
| CallClose (r : Resource)
| CallInfo (msg : string)
| CallHandleFunc (pattern : string)
| CallListenAndServe (addr : string)
| CallSlogError (msg : string) (e : goerror)
| CallExit (code : Z).

(** ** [run] *)

(** The function so far: the variables, the calls made and the deferred
    calls, the one deferred last first. *)
Record RunState := mkRunState {
  globals : vars.Globals;
  made : list BootCall;
  deferred : list BootCall
}.

Definition call (c : BootCall) (s : RunState) : RunState :=
  mkRunState (globals s) (made s ++ [c]) (deferred s).

Definition defer (c : BootCall) (s : RunState) : RunState :=
  mkRunState (globals s) (made s) (c :: deferred s).

Definition assign (g : vars.Globals) (s : RunState) : RunState :=
  mkRunState g (made s) (deferred s).

(** [return e]: the deferred calls run, then the function is left. *)
Definition leave (e : option goerror) (s : RunState)
  : option goerror * vars.Globals * list BootCall :=
  (e, globals s, made s ++ deferred s).

Definition setClassifier (n : ClassifierName) (v : ClassifierVar) (g : vars.Globals)
  : vars.Globals :=
  match n with
  | HaarFace => vars.mk (vars.webcam g) (vars.err g) v (vars.eyeCascade g) (vars.lbpFaceCascade g)
  | Eye => vars.mk (vars.webcam g) (vars.err g) (vars.haarFaceCascade g) v (vars.lbpFaceCascade g)
  | LbpFace => vars.mk (vars.webcam g) (vars.err g) (vars.haarFaceCascade g) (vars.eyeCascade g) v
  end.

Definition getClassifier (n : ClassifierName) (g : vars.Globals) : ClassifierVar :=
  match n with
  | HaarFace => vars.haarFaceCascade g
  | Eye => vars.eyeCascade g
  | LbpFace => vars.lbpFaceCascade g
  end.

(** The three statements that create one classifier, defer its release
    and load [file] into it, with the result of [Load]. *)
Definition loadClassifier (b : Boot) (n : ClassifierName) (file : string) (s : RunState)
  : bool * RunState :=
  let s := call (CallNewCascadeClassifier n) s in
  let s := assign (setClassifier n Empty (globals s)) s in
  let s := defer (CallClose (TheClassifier n)) s in
  let s := call (CallLoad n file) s in
  if Load b file
  then (true, assign (setClassifier n (Holding (gocv.Loaded file)) (globals s)) s)
  else (false, s).

Definition listenAddr : string := "127.0.0.1:8888".

Definition haarFaceFile : string :=
  filepath_Join haarClassifierPath "haarcascade_frontalface_default.xml".
Definition eyeFile : string :=
  filepath_Join haarClassifierPath "haarcascade_eye.xml".
Definition lbpFaceFile : string :=
  filepath_Join lbpClassifierPath "lbpcascade_frontalface_improved.xml".

Definition run (b : Boot) : option goerror * vars.Globals * list BootCall :=
  let s := mkRunState vars.initial [] [] in
  let s := call (CallOpenVideoCapture deviceID) s in
  match OpenVideoCapture b deviceID with
  | Err e =>
      let s := assign (vars.mk None (Some e) Unassigned Unassigned Unassigned) s in
      leave (Some (Errorf_w ("opening capture device " +:+ pretty deviceID +:+ ": ")
                            (vars.err (globals s)))) s
  | Ok cam =>
      let s := assign (vars.mk (Some cam) None Unassigned Unassigned Unassigned) s in
      let s := defer (CallClose TheWebcam) s in
      let '(ok, s) := loadClassifier b HaarFace haarFaceFile s in
      if negb ok then
        leave (Some (Errorf_w "loading Haar face classifier: " (vars.err (globals s)))) s
      else
      let '(ok, s) := loadClassifier b Eye eyeFile s in
      if negb ok then
        leave (Some (Errorf_w "loading Haar eye classifier: " (vars.err (globals s)))) s
      else
      let '(ok, s) := loadClassifier b LbpFace lbpFaceFile s in
      if negb ok then
        leave (Some (Errorf_w "loading LBP face classifier: " (vars.err (globals s)))) s
      else
      let s := call (CallInfo "Server listening at http://127.0.0.1:8888/") s in
      let s := call (CallHandleFunc "/") s in
      let s := call (CallListenAndServe listenAddr) s in
      leave (match ListenAndServe b listenAddr with
             | Some e => Some (FromServer e)
             | None => None
             end) s
  end.

(** ** [main] *)

(** The calls of the program and its exit status. *)
Definition main (b : Boot) : list BootCall * Z :=
  let '(e, _, calls) := run b in
  match e with
  | Some err => (calls ++ [CallSlogError "Exiting with error" err; CallExit 1], 1)
  | None => (calls, 0)
  end.

(** ** Reading the calls of [run] *)

(** The resources closed, in the order of the calls. *)
Definition closed (l : list BootCall) : list Resource :=
  flat_map (fun c => match c with CallClose r => [r] | _ => [] end) l.

(** The classifiers created, in the order of the calls. *)
Definition created (l : list BootCall) : list ClassifierName :=
  flat_map (fun c => match c with CallNewCascadeClassifier n => [n] | _ => [] end) l.

(** The loads attempted, in the order of the calls. *)
Definition loads (l : list BootCall) : list (ClassifierName * string) :=
  flat_map (fun c => match c with CallLoad n file => [(n, file)] | _ => [] end) l.

(** The cascade files of the three classifiers, in the order of [run]. *)
Definition cascadeFiles : list (ClassifierName * string) :=
  [(HaarFace, haarFaceFile); (Eye, eyeFile); (LbpFace, lbpFaceFile)].

(** The files of [files] up to and including the first that does not
    load. *)
Fixpoint untilFailure (b : Boot) (files : list (ClassifierName * string))
  : list (ClassifierName * string) :=
  match files with
  | [] => []
  | (n, file) :: rest =>
      (n, file) :: (if Load b file then untilFailure b rest else [])
  end.

(** Sample start-ups: everything works and the server stops with an
    error; the eye cascade file is missing; the device does not open. *)
Definition serverClosed : error := "http: Server closed".

Definition goodBoot : Boot :=
  mkBoot (fun id => Ok (Device id)) (fun _ => true) (fun _ => Some serverClosed).

Definition noEyeFileBoot : Boot :=
  mkBoot (fun id => Ok (Device id))
         (fun file => negb (String.eqb file eyeFile))
         (fun _ => Some serverClosed).

Definition noDeviceBoot : Boot :=
  mkBoot (fun _ => Err "Error opening device: 0") (fun _ => true) (fun _ => Some serverClosed).

(** The three results of [run]. *)
Definition runError (b : Boot) : option goerror := fst (fst (run b)).
Definition runGlobals (b : Boot) : vars.Globals := snd (fst (run b)).
Definition runCalls (b : Boot) : list BootCall := snd (run b).

(** The device opened. *)
Definition deviceOpened (b : Boot) : Prop :=
  exists cam, OpenVideoCapture b deviceID = Ok cam.

(** Every cascade file loaded. *)
Definition allLoaded (b : Boot) : Prop :=
  forall n file, In (n, file) cascadeFiles -> Load b file = true.

(** The five outcomes of [run]. *)
Inductive Outcome (b : Boot) : Prop :=
| OpenFailed e :
    OpenVideoCapture b deviceID = Err e -> Outcome b
| HaarFailed cam :
    OpenVideoCapture b deviceID = Ok cam -> Load b haarFaceFile = false -> Outcome b
| EyeFailed cam :
    OpenVideoCapture b deviceID = Ok cam -> Load b haarFaceFile = true ->
    Load b eyeFile = false -> Outcome b
| LbpFailed cam :
    OpenVideoCapture b deviceID = Ok cam -> Load b haarFaceFile = true ->
    Load b eyeFile = true -> Load b lbpFaceFile = false -> Outcome b
| Served cam :
    OpenVideoCapture b deviceID = Ok cam -> Load b haarFaceFile = true ->
    Load b eyeFile = true -> Load b lbpFaceFile = true -> Outcome b.


(** * Reading the calls of a request *)

#[global] Instance RGBA_eq_dec : EqDecision color.RGBA.
Proof. solve_decision. Defined.

(** What a call draws onto the frame; calls that do not draw leave it as it
    is. *)
Definition drawCall (m : gocv.Mat) (c : Call) : gocv.Mat :=
  match c with
  | CallRectangle r col th => gocv.Rectangle m r col th
  | CallPutText text org fnt scale col th => gocv.PutText m text org fnt scale col th
  | _ => m
  end.

(** The frame [m] after the calls [l]. *)
Definition drawAll (l : list Call) (m : gocv.Mat) : gocv.Mat := fold_left drawCall l m.

(** The boxes outlined in the colour [col], in the order of the calls. *)
Definition outlined (col : color.RGBA) (l : list Call) : list Rectangle :=
  flat_map (fun c => match c with
                     | CallRectangle r c' _ => if decide (c' = col) then [r] else []
                     | _ => []
                     end) l.

(** The labels drawn in the colour [col], with their anchors. *)
Definition labelled (col : color.RGBA) (l : list Call) : list (string * Point) :=
  flat_map (fun c => match c with
                     | CallPutText text org _ _ c' _ =>
                         if decide (c' = col) then [(text, org)] else []
                     | _ => []
                     end) l.

(** The boxes of which a region was taken. *)
Definition regions (l : list Call) : list Rectangle :=
  flat_map (fun c => match c with CallRegion r => [r] | _ => [] end) l.

(** The [Mat]s the classifier [cl] was run on. *)
Definition runsOf (cl : gocv.CascadeClassifier) (l : list Call) : list gocv.Mat :=
  flat_map (fun c => match c with
                     | CallDetectMultiScale cl' m => if decide (cl' = cl) then [m] else []
                     | _ => []
                     end) l.

(** The [Mat]s converted, read, encoded; the buffers decoded; the images
    written; the lines printed. *)
Definition converted (l : list Call) : list gocv.Mat :=
  flat_map (fun c => match c with CallCvtColor m _ => [m] | _ => [] end) l.

Definition reads (l : list Call) : nat :=
  length (flat_map (fun c => match c with CallRead => [c] | _ => [] end) l).

Definition encoded (l : list Call) : list gocv.Mat :=
  flat_map (fun c => match c with CallIMEncode _ m => [m] | _ => [] end) l.

Definition decoded (l : list Call) : list (list Byte.byte) :=
  flat_map (fun c => match c with CallDecode b => [b] | _ => [] end) l.

Definition written (l : list Call) : list Image :=
  flat_map (fun c => match c with CallJpegEncode m _ => [m] | _ => [] end) l.

Definition printed (l : list Call) : list string :=
  flat_map (fun c => match c with CallPrint s => [s] | _ => [] end) l.

(** The Haar candidates that pass the size test, in the order returned. *)
Definition accepted (rects : list Rectangle) : list Rectangle :=
  List.filter faceSizeOk rects.

(** The box by which a region was taken, and the [Mat] it is a view of. *)
Definition roiOf (m : gocv.Mat) : option Rectangle :=
  match m with
  | gocv.Region _ r => Some r
  | _ => None
  end.

Definition viewOf (m : gocv.Mat) : option gocv.Mat :=
  match m with
  | gocv.Region m' _ => Some m'
  | _ => None
  end.

(** [eyeRunsSeeDrawings m l]: replaying the calls [l] from the frame [m],
    every run of the eye classifier is on a view of the frame exactly as
    drawn on by the calls before it. *)
Fixpoint eyeRunsSeeDrawings (m : gocv.Mat) (l : list Call) : Prop :=
  match l with
  | [] => True
  | c :: l' =>
      match c with
      | CallDetectMultiScale cl roi => cl = eyeCascade -> viewOf roi = Some m
      | _ => True
      end /\ eyeRunsSeeDrawings (drawCall m c) l'
  end.

(** Everything succeeds: the frame is read, encoded, decoded and written
    without error. *)
Definition requestSucceeds (w : World) : Prop :=
  exists f buf out,
    webcam_Read w = Some f /\
    IMEncode w ".jpg" (annotated w f) = Ok buf /\
    image_Decode w buf = Ok out /\
    snd (jpeg_Encode w out None) = None.

(** The frame was read, encoded and decoded. *)
Definition frameDecoded (w : World) : Prop :=
  exists f buf out,
    webcam_Read w = Some f /\
    IMEncode w ".jpg" (annotated w f) = Ok buf /\
    image_Decode w buf = Ok out.

(** The eye boxes drawn for one run of the eye classifier on [roiMat]: the
    boxes it returns, offset by the origin of the box of the region. *)
Definition eyesOf (w : World) (roiMat : gocv.Mat) : list Rectangle :=
  match roiOf roiMat with
  | Some r => map (offsetEye r) (DetectMultiScale w eyeCascade roiMat)
  | None => []
  end.
(** * Properties *)

(** ** Arithmetic of [int] *)

Lemma wrap_in_range (z : Z) : goint.in_range (goint.wrap z).
Proof.
  unfold goint.in_range, goint.wrap, goint.min_int, goint.max_int.
  pose proof (Z.mod_pos_bound (z + 2 ^ 63) (2 ^ 64) ltac:(lia)). lia.
Qed.

Lemma wrap_exact (z : Z) : goint.in_range z -> goint.wrap z = z.
Proof.
  unfold goint.in_range, goint.wrap, goint.min_int, goint.max_int. intros Hz.
  rewrite Z.mod_small; lia.
Qed.

Lemma add_exact (a b : Z) : goint.in_range (a + b) -> goint.add a b = a + b.
Proof. apply wrap_exact. Qed.

Lemma sub_exact (a b : Z) : goint.in_range (a - b) -> goint.sub a b = a - b.
Proof. apply wrap_exact. Qed.

(** A difference of two [int]s that wraps to a non-negative value did not
    wrap at all when the subtrahend is the smaller one. *)
Lemma sub_nonneg_exact (a b : Z) :
  goint.in_range a -> goint.in_range b -> b <= a -> 0 <= goint.sub a b ->
  goint.sub a b = a - b.
Proof.
  unfold goint.sub, goint.wrap, goint.in_range, goint.min_int, goint.max_int.
  intros Ha Hb Hle Hnn.
  destruct (Z_lt_le_dec (a - b) (2 ^ 63)) as [Hlt|Hge].
  - rewrite Z.mod_small; lia.
  - exfalso.
    replace (a - b + 2 ^ 63) with (a - b - 2 ^ 63 + 1 * 2 ^ 64) in Hnn by lia.
    rewrite Z.mod_add in Hnn by lia.
    rewrite Z.mod_small in Hnn; lia.
Qed.

(** ** The colour literals are pairwise distinct *)

Lemma green_neq_blue : green <> blue.
Proof. discriminate. Qed.

Lemma green_neq_red : green <> red.
Proof. discriminate. Qed.

Lemma blue_neq_red : blue <> red.
Proof. discriminate. Qed.

(** ** The loops, call by call *)

Lemma eyeLoop_calls (r : Rectangle) (eyes : list Rectangle) (imgMat : gocv.Mat) :
  snd (eyeLoop r eyes imgMat) = map (eyeCall r) eyes.
Proof.
  revert imgMat. induction eyes as [|e eyes IH]; intros imgMat; simpl; [done|].
  specialize (IH (gocv.Rectangle imgMat (offsetEye r e) blue 2)).
  destruct (eyeLoop r eyes _) as [m cs]. simpl in *. by rewrite IH.
Qed.

Lemma lbpLoop_calls (rects : list Rectangle) (imgMat : gocv.Mat) :
  snd (lbpLoop rects imgMat) = flat_map lbpCalls rects.
Proof.
  revert imgMat. induction rects as [|r rects IH]; intros imgMat; simpl; [done|].
  specialize (IH (gocv.PutText (gocv.Rectangle imgMat r red 2)
                               (sizeText r) (textOrg r) font 1 red 2)).
  destruct (lbpLoop rects _) as [m cs]. simpl in *. by rewrite IH.
Qed.

(** The calls of the Haar loop body on an accepted and on a rejected box. *)
Lemma haarBody_accept (w : World) (r : Rectangle) (imgMat : gocv.Mat) :
  faceSizeOk r = true ->
  let drawn := gocv.PutText (gocv.Rectangle imgMat r green 2)
                            (sizeText r) (textOrg r) font 1 green 2 in
  let roiMat := gocv.Region drawn r in
  snd (haarBody w r imgMat) =
    [CallRectangle r green 2;
     CallPutText (sizeText r) (textOrg r) font 1 green 2;
     CallRegion r;
     CallDetectMultiScale eyeCascade roiMat] ++
    map (eyeCall r) (DetectMultiScale w eyeCascade roiMat).
Proof.
  intros Hok. unfold haarBody. rewrite Hok. cbv zeta.
  pose proof (eyeLoop_calls r
    (DetectMultiScale w eyeCascade
       (gocv.Region (gocv.PutText (gocv.Rectangle imgMat r green 2)
                      (sizeText r) (textOrg r) font 1 green 2) r))
    (gocv.PutText (gocv.Rectangle imgMat r green 2)
                  (sizeText r) (textOrg r) font 1 green 2)) as E.
  destruct (eyeLoop r _ _) as [m cs]. simpl in *. by rewrite E.
Qed.

Lemma haarBody_reject (w : World) (r : Rectangle) (imgMat : gocv.Mat) :
  faceSizeOk r = false -> haarBody w r imgMat = (imgMat, []).
Proof. intros Hno. unfold haarBody. by rewrite Hno. Qed.

Lemma faceSizeOk_spec (r : Rectangle) :
  faceSizeOk r = true <-> minFaceSize < X (Size r) < maxFaceSize.
Proof. unfold faceSizeOk. rewrite andb_true_iff, !Z.ltb_lt. tauto. Qed.

Lemma faceSizeOk_false (r : Rectangle) :
  faceSizeOk r = false <-> ~ (minFaceSize < X (Size r) < maxFaceSize).
Proof. rewrite <- faceSizeOk_spec. destruct (faceSizeOk r); split; congruence. Qed.

(** Drawing keeps the channels and composes. *)
Lemma drawnOn_Channels (base m : gocv.Mat) :
  drawnOn base m -> gocv.Channels m = gocv.Channels base.
Proof. induction 1; simpl; congruence. Qed.

Lemma drawnOn_trans (a b c : gocv.Mat) : drawnOn a b -> drawnOn b c -> drawnOn a c.
Proof. intros Hab Hbc. induction Hbc; [done|by constructor..]. Qed.

Lemma eyeLoop_drawn (r : Rectangle) (eyes : list Rectangle) (imgMat : gocv.Mat) :
  drawnOn imgMat (fst (eyeLoop r eyes imgMat)).
Proof.
  revert imgMat. induction eyes as [|e eyes IH]; intros imgMat; simpl; [constructor|].
  specialize (IH (gocv.Rectangle imgMat (offsetEye r e) blue 2)).
  destruct (eyeLoop r eyes _) as [m cs]. simpl in *.
  eapply drawnOn_trans; [|exact IH]. do 2 constructor.
Qed.

Lemma haarBody_drawn (w : World) (r : Rectangle) (imgMat : gocv.Mat) :
  drawnOn imgMat (fst (haarBody w r imgMat)).
Proof.
  unfold haarBody. destruct (faceSizeOk r); [|constructor].
  match goal with |- context [eyeLoop r ?es ?m] =>
    pose proof (eyeLoop_drawn r es m) as Hd; destruct (eyeLoop r es m) as [m' cs] end.
  simpl in *. eapply drawnOn_trans; [|exact Hd]. do 3 constructor.
Qed.

(** Every call of the Haar loop comes from the body run on one of the
    candidates, on the frame as drawn on so far, and all calls of that run
    are calls of the loop. *)
Lemma haarLoop_in (w : World) (rects : list Rectangle) (imgMat : gocv.Mat) (c : Call) :
  In c (snd (haarLoop w rects imgMat)) ->
  exists r m, In r rects /\ In c (snd (haarBody w r m)) /\
              incl (snd (haarBody w r m)) (snd (haarLoop w rects imgMat)) /\
              drawnOn imgMat m.
Proof.
  revert imgMat. induction rects as [|r rects IH]; intros imgMat; simpl; [tauto|].
  pose proof (haarBody_drawn w r imgMat) as Hd.
  destruct (haarBody w r imgMat) as [m1 cs1] eqn:E1.
  specialize (IH m1). destruct (haarLoop w rects m1) as [m2 cs2]. simpl in *.
  rewrite in_app_iff. intros [Hc|Hc].
  - exists r, imgMat. rewrite E1. simpl.
    split_and!; auto using incl_appl, incl_refl, drawn_base.
  - destruct (IH Hc) as (r' & m & Hr' & Hin & Hincl & Hdm). exists r', m.
    split_and!; eauto using incl_appr, drawnOn_trans.
Qed.

(** The calls of the body run on a candidate appear as one block in the
    calls of the loop. *)
Lemma haarLoop_block (w : World) (rects : list Rectangle) (imgMat : gocv.Mat) (r : Rectangle) :
  In r rects ->
  exists m pre post,
    snd (haarLoop w rects imgMat) = pre ++ snd (haarBody w r m) ++ post.
Proof.
  revert imgMat. induction rects as [|r0 rects IH]; intros imgMat; simpl; [tauto|].
  destruct (haarBody w r0 imgMat) as [m1 cs1] eqn:E1.
  specialize (IH m1). destruct (haarLoop w rects m1) as [m2 cs2]. simpl in *.
  intros [->|Hin].
  - exists imgMat, [], cs2. by rewrite E1.
  - destruct (IH Hin) as (m & pre & post & ->).
    exists m, (cs1 ++ pre), post. by rewrite <- app_assoc.
Qed.

(** What the body of the Haar loop can call. *)
Lemma haarBody_in (w : World) (r : Rectangle) (m : gocv.Mat) (c : Call) :
  In c (snd (haarBody w r m)) ->
  faceSizeOk r = true /\
  let roiMat := gocv.Region (gocv.PutText (gocv.Rectangle m r green 2)
                               (sizeText r) (textOrg r) font 1 green 2) r in
  (c = CallRectangle r green 2 \/
   c = CallPutText (sizeText r) (textOrg r) font 1 green 2 \/
   c = CallRegion r \/
   c = CallDetectMultiScale eyeCascade roiMat \/
   exists e, In e (DetectMultiScale w eyeCascade roiMat) /\ c = eyeCall r e).
Proof.
  destruct (faceSizeOk r) eqn:Hok.
  - rewrite haarBody_accept by done. cbv zeta. rewrite in_app_iff, in_map_iff.
    simpl. intros [[<-|[<-|[<-|[<-|[]]]]]|(e & <- & He)]; split; eauto 10.
  - rewrite haarBody_reject by done. simpl. tauto.
Qed.

Lemma lbpCalls_block (rects : list Rectangle) (r : Rectangle) :
  In r rects ->
  exists pre post, flat_map lbpCalls rects = pre ++ lbpCalls r ++ post.
Proof.
  intros Hr. apply in_split in Hr. destruct Hr as (l1 & l2 & ->).
  exists (flat_map lbpCalls l1), (flat_map lbpCalls l2).
  rewrite flat_map_app. reflexivity.
Qed.

Lemma respond_not_vision (w : World) (m : gocv.Mat) (c : Call) :
  In c (snd (respond w m)) -> isVisionCall c = false.
Proof.
  unfold respond.
  destruct (IMEncode w ".jpg" m) as [buf|e].
  - destruct (image_Decode w buf) as [out|e].
    + destruct (jpeg_Encode w out None) as [written [e|]]; simpl;
        intros H; repeat (destruct H as [<-|H]; [done|]); destruct H.
    + simpl. intros H; repeat (destruct H as [<-|H]; [done|]); destruct H.
  - simpl. intros H; repeat (destruct H as [<-|H]; [done|]); destruct H.
Qed.

(** ** A request whose read succeeded *)

Section ReadSucceeded.

Variable w : World.
Variable f : gocv.Frame.
Hypothesis Hread : webcam_Read w = Some f.

Local Abbreviation gray := (grayOf f).
Local Abbreviation haarRects := (DetectMultiScale w haarFaceCascade (grayOf f)).
Local Abbreviation lbpRects := (DetectMultiScale w lbpFaceCascade (grayOf f)).

(** The calls of the request, pass by pass. *)
Lemma calls_read_ok :
  calls w =
    CallRead ::
    CallCvtColor (gocv.Captured f) gocv.ColorBGRToGray ::
    CallDetectMultiScale haarFaceCascade gray ::
    snd (haarLoop w haarRects (gocv.Captured f)) ++
    CallDetectMultiScale lbpFaceCascade gray ::
    flat_map lbpCalls lbpRects ++
    snd (respond w (annotated w f)).
Proof.
  unfold calls, handleRequest, annotated, detectAndAnnotate.
  rewrite Hread. fold (grayOf f).
  destruct (haarLoop w _ (gocv.Captured f)) as [m1 cs1].
  pose proof (lbpLoop_calls (DetectMultiScale w lbpFaceCascade (grayOf f)) m1) as E.
  destruct (lbpLoop _ m1) as [m2 cs2]. simpl in E. subst cs2.
  simpl. destruct (respond w m2) as [resp cs3]. simpl.
  by rewrite <- app_assoc.
Qed.

Lemma response_read_ok : response w = fst (respond w (annotated w f)).
Proof.
  unfold response, handleRequest, annotated. rewrite Hread.
  destruct (detectAndAnnotate w f) as [m cs]. simpl.
  by destruct (respond w m) as [resp cs3].
Qed.

(** Where a call of the request comes from. *)
Lemma calls_in (c : Call) :
  In c (calls w) ->
  c = CallRead \/
  c = CallCvtColor (gocv.Captured f) gocv.ColorBGRToGray \/
  c = CallDetectMultiScale haarFaceCascade gray \/
  (exists r m, In r haarRects /\
               In c (snd (haarBody w r m)) /\
               incl (snd (haarBody w r m)) (calls w) /\
               drawnOn (gocv.Captured f) m) \/
  c = CallDetectMultiScale lbpFaceCascade gray \/
  (exists r, In r lbpRects /\ In c (lbpCalls r)) \/
  In c (snd (respond w (annotated w f))).
Proof.
  rewrite calls_read_ok.
  simpl. rewrite in_app_iff. simpl. rewrite in_app_iff, in_flat_map.
  intros [H|[H|[H|[H|[H|[H|H]]]]]]; eauto 10.
  apply haarLoop_in in H. destruct H as (r & m & Hr & Hc & Hincl & Hd).
  do 3 right. left. exists r, m. split_and!; [done| done| |done].
  do 3 apply incl_tl. by apply incl_appl.
Qed.

(** The calls of the loop body for a Haar candidate form one block of the
    calls of the request. *)
Lemma calls_haar_block (r : Rectangle) :
  In r haarRects ->
  exists m pre post, calls w = pre ++ snd (haarBody w r m) ++ post.
Proof.
  intros Hr. rewrite calls_read_ok.
  destruct (haarLoop_block w _ (gocv.Captured f) r Hr) as (m & pre & post & ->).
  exists m.
  exists (CallRead :: CallCvtColor (gocv.Captured f) gocv.ColorBGRToGray ::
          CallDetectMultiScale haarFaceCascade gray :: pre).
  eexists. simpl. rewrite <- !app_assoc. reflexivity.
Qed.

(** And so do the two calls for an LBP box. *)
Lemma calls_lbp_block (r : Rectangle) :
  In r lbpRects ->
  exists pre post, calls w = pre ++ lbpCalls r ++ post.
Proof.
  intros Hr. rewrite calls_read_ok.
  destruct (lbpCalls_block _ r Hr) as (pre & post & ->).
  exists (CallRead :: CallCvtColor (gocv.Captured f) gocv.ColorBGRToGray ::
          CallDetectMultiScale haarFaceCascade gray ::
          snd (haarLoop w haarRects (gocv.Captured f)) ++
          CallDetectMultiScale lbpFaceCascade gray :: pre).
  exists (post ++ snd (respond w (annotated w f))).
  cbn [app]. rewrite <- !app_assoc. reflexivity.
Qed.

End ReadSucceeded.

(** ** The size label determines the size *)

Lemma noX_app (s t : string) : noX s -> noX t -> noX (s +:+ t).
Proof. induction s as [|c s IH]; simpl; [done|]. intros [Hc Hs] Ht. auto. Qed.

Lemma noX_pretty_N_go (x : N) (s : string) : noX s -> noX (pretty_N_go x s).
Proof.
  revert s. induction (N.lt_wf_0 x) as [x _ IH]; intros s Hs.
  assert (x = 0 \/ 0 < x)%N as [->|Hpos] by lia.
  - by rewrite pretty_N_go_0.
  - rewrite pretty_N_go_step by done. apply IH.
    { by apply N.div_lt. }
    simpl. split; [|done].
    unfold pretty_N_char. by repeat case_match.
Qed.

Lemma noX_pretty_N (x : N) : noX (pretty x).
Proof.
  unfold pretty, pretty_N. case_decide; [simpl; split; [congruence|done]|].
  by apply noX_pretty_N_go.
Qed.

Lemma noX_pretty_Z (z : Z) : noX (pretty z).
Proof.
  destruct z as [|p|p]; unfold pretty, pretty_Z.
  - simpl. split; [congruence|done].
  - apply noX_pretty_N.
  - apply noX_app; [simpl; split; [congruence|done]|apply noX_pretty_N].
Qed.

(** Two strings without an x, each followed by an x, can be told apart. *)
Lemma app_x_inj (a a' b b' : string) :
  noX a -> noX a' -> a +:+ "x" +:+ b = a' +:+ "x" +:+ b' -> a = a' /\ b = b'.
Proof.
  revert a'. induction a as [|c a IH]; intros [|c' a']; simpl.
  - intros _ _ E. by injection E.
  - intros _ [Hc' _] E. injection E as E _. congruence.
  - intros [Hc _] _ E. injection E as E _. congruence.
  - intros [_ Ha] [_ Ha'] E. injection E as -> E.
    destruct (IH a' Ha Ha' E) as [-> ->]. done.
Qed.

Lemma sizeText_inj (r r' : Rectangle) : sizeText r = sizeText r' -> Size r = Size r'.
Proof.
  unfold sizeText. simpl. intros E. injection E as E.
  apply app_x_inj in E; [|apply noX_pretty_Z..].
  destruct E as [EX EY].
  apply (inj pretty) in EX. apply (inj pretty) in EY.
  unfold Size in *. simpl in *. congruence.
Qed.

Lemma faceSizeOk_Size (r r' : Rectangle) : Size r = Size r' -> faceSizeOk r = faceSizeOk r'.
Proof. unfold faceSizeOk. by intros ->. Qed.

(** ** The size filter of the Haar pass *)

(** Splits a hypothesis [H : In c (calls w)] by the pass that made the call. *)
Ltac by_pass H Hread r m Hr Hincl Hdrawn :=
  apply (calls_in _ _ Hread) in H;
  destruct H as [H|[H|[H|[(r & m & Hr & H & Hincl & Hdrawn)|[H|[(r & Hr & H)|H]]]]]].

Lemma in_lbpCalls (r : Rectangle) (c : Call) :
  In c (lbpCalls r) ->
  c = CallRectangle r red 2 \/ c = CallPutText (sizeText r) (textOrg r) font 1 red 2.
Proof. simpl. intuition. Qed.

(** A green rectangle, a green label, a region or a run of the eye
    classifier can only come from an accepted Haar candidate. *)
Lemma haar_call_accepted (w : World) (f : gocv.Frame) (r : Rectangle) (c : Call) :
  webcam_Read w = Some f ->
  In c (calls w) ->
  haarCallFor r c ->
  faceSizeOk r = true.
Proof.
  intros Hread Hin Hc.
  by_pass Hin Hread r' m' Hr' Hincl Hdrawn.
  - subst c. inversion Hc.
  - subst c. inversion Hc.
  - subst c. inversion Hc.
  - apply haarBody_in in Hin. destruct Hin as [Hok Hin]. cbv zeta in Hin.
    destruct Hc as [| | |m];
      destruct Hin as [E|[E|[E|[E|(e & He & E)]]]]; unfold eyeCall in E;
      try discriminate E.
    + by replace r with r' by congruence.
    + rewrite <- Hok. apply faceSizeOk_Size, sizeText_inj. congruence.
    + by replace r with r' by congruence.
    + by replace r with r' by congruence.
  - subst c. inversion Hc.
  - apply in_lbpCalls in Hin. destruct Hin as [E|E]; subst c; inversion Hc.
  - apply respond_not_vision in Hin. by destruct Hc.
Qed.

(** C1: a Haar candidate is drawn, labelled and searched for eyes exactly
    when its width lies strictly between [minFaceSize] and [maxFaceSize];
    a width equal to either bound is rejected, and for a rejected candidate
    the loop body makes no call at all (in particular prints nothing) and
    leaves the frame as it was. *)
Theorem haar_candidate_accepted_iff_width_strictly_inside
  (w : World) (f : gocv.Frame) (r : Rectangle) :
  webcam_Read w = Some f ->
  In r (DetectMultiScale w haarFaceCascade (grayOf f)) ->
  let width := X (Size r) in
  let accepted := minFaceSize < width < maxFaceSize in
  (accepted <-> In (CallRectangle r green 2) (calls w)) /\
  (accepted <-> In (CallPutText (sizeText r) (textOrg r) font 1 green 2) (calls w)) /\
  (accepted <-> In (CallRegion r) (calls w)) /\
  (accepted <->
     exists m, In (CallDetectMultiScale eyeCascade (gocv.Region m r)) (calls w)) /\
  (width = minFaceSize \/ width = maxFaceSize -> ~ accepted) /\
  (~ accepted -> forall m, haarBody w r m = (m, [])).
Proof.
  intros Hread Hr width accepted.
  assert (Hblock : accepted ->
            exists m pre post,
              calls w = pre ++
                ([CallRectangle r green 2;
                  CallPutText (sizeText r) (textOrg r) font 1 green 2;
                  CallRegion r;
                  CallDetectMultiScale eyeCascade
                    (gocv.Region (gocv.PutText (gocv.Rectangle m r green 2)
                       (sizeText r) (textOrg r) font 1 green 2) r)] ++
                 map (eyeCall r)
                   (DetectMultiScale w eyeCascade
                     (gocv.Region (gocv.PutText (gocv.Rectangle m r green 2)
                       (sizeText r) (textOrg r) font 1 green 2) r))) ++ post).
  { intros Hacc. apply faceSizeOk_spec in Hacc.
    destruct (calls_haar_block w f Hread r Hr) as (m & pre & post & E).
    rewrite (haarBody_accept w r m Hacc) in E. eauto. }
  assert (Hback : forall c, haarCallFor r c -> In c (calls w) -> accepted).
  { intros c Hc Hin. apply faceSizeOk_spec. by apply (haar_call_accepted w f r c). }
  refine (conj (conj _ _) (conj (conj _ _) (conj (conj _ _)
            (conj (conj _ _) (conj _ _))))).
  - intros Hacc. destruct (Hblock Hacc) as (m & pre & post & ->).
    rewrite !in_app_iff. simpl. auto 10.
  - apply Hback. constructor.
  - intros Hacc. destruct (Hblock Hacc) as (m & pre & post & ->).
    rewrite !in_app_iff. simpl. auto 10.
  - apply Hback. constructor.
  - intros Hacc. destruct (Hblock Hacc) as (m & pre & post & ->).
    rewrite !in_app_iff. simpl. auto 10.
  - apply Hback. constructor.
  - intros Hacc. destruct (Hblock Hacc) as (m & pre & post & ->).
    eexists. rewrite !in_app_iff. simpl. eauto 10.
  - intros [m Hin]. revert Hin. apply Hback. constructor.
  - subst accepted. intros [E|E]; rewrite E; unfold minFaceSize, maxFaceSize; lia.
  - intros Hno m. apply haarBody_reject. by apply faceSizeOk_false.
Qed.

Lemma haar_candidate_accepted_iff_width_strictly_inside_witness :
  webcam_Read sampleWorld = Some frame0 /\
  In face250 (DetectMultiScale sampleWorld haarFaceCascade (grayOf frame0)) /\
  In (CallRectangle face250 green 2) (calls sampleWorld) /\
  haarBody sampleWorld face200 gocv.NewMat = (gocv.NewMat, []).
Proof.
  assert (H1 : webcam_Read sampleWorld = Some frame0) by reflexivity.
  assert (H2 : In face250 (DetectMultiScale sampleWorld haarFaceCascade (grayOf frame0)))
    by (simpl; auto).
  assert (H3 : In face200 (DetectMultiScale sampleWorld haarFaceCascade (grayOf frame0)))
    by (simpl; auto).
  pose proof (haar_candidate_accepted_iff_width_strictly_inside
                sampleWorld frame0 face250 H1 H2) as (Hdrawn & _).
  pose proof (haar_candidate_accepted_iff_width_strictly_inside
                sampleWorld frame0 face200 H1 H3) as (_ & _ & _ & _ & _ & Hdropped).
  split; [exact H1|]. split; [exact H2|]. split.
  - apply (proj1 Hdrawn). vm_compute. split; reflexivity.
  - apply Hdropped. vm_compute. intros [H _]. discriminate H.
Defined.

(** ** Eye boxes in frame coordinates *)

Lemma offsetEye_fields (r e : Rectangle) :
  offsetEye r e =
    mkRect (Pt (goint.add (X (Min e)) (X (Min r))) (goint.add (Y (Min e)) (Y (Min r))))
           (Pt (goint.add (X (Max e)) (X (Min r))) (goint.add (Y (Max e)) (Y (Min r)))).
Proof. reflexivity. Qed.

(** Every blue rectangle is the offset of an eye box that the eye
    classifier returned for the region of an accepted Haar candidate. *)
Lemma blue_rectangle_origin (w : World) (f : gocv.Frame) (g : Rectangle) (th : Z) :
  webcam_Read w = Some f ->
  In (CallRectangle g blue th) (calls w) ->
  exists r m e,
    In r (DetectMultiScale w haarFaceCascade (grayOf f)) /\
    faceSizeOk r = true /\
    In (CallDetectMultiScale eyeCascade (gocv.Region m r)) (calls w) /\
    In e (DetectMultiScale w eyeCascade (gocv.Region m r)) /\
    g = offsetEye r e /\ th = 2.
Proof.
  intros Hread Hin.
  by_pass Hin Hread r m Hr Hincl Hdrawn; try discriminate Hin.
  - apply haarBody_in in Hin. destruct Hin as [Hok Hin]. cbv zeta in Hin.
    destruct Hin as [E|[E|[E|[E|(e & He & E)]]]]; unfold eyeCall in E;
      try discriminate E.
    injection E as -> ->.
    exists r, (gocv.PutText (gocv.Rectangle m r green 2)
                 (sizeText r) (textOrg r) font 1 green 2), e.
    split_and!; try done.
    apply Hincl. rewrite (haarBody_accept w r m Hok). simpl. auto.
  - apply in_lbpCalls in Hin. destruct Hin as [E|E]; discriminate E.
  - apply respond_not_vision in Hin. discriminate Hin.
Qed.

(** C2: for every accepted Haar face [r] the eye classifier is run on a
    region bounded by [r], and every eye box [e] it returns is drawn at the
    box whose four coordinates are those of [e] with the origin of [r]
    added: [Min.X] and [Max.X] are offset by [r.Min.X], [Min.Y] and [Max.Y]
    by [r.Min.Y] (Go's [+=] on [int]; it is the plain sum whenever the sum
    fits in an [int]). *)
Theorem eye_box_offset_by_face_origin_on_all_four_fields
  (w : World) (f : gocv.Frame) (r : Rectangle) :
  webcam_Read w = Some f ->
  In r (DetectMultiScale w haarFaceCascade (grayOf f)) ->
  faceSizeOk r = true ->
  exists m,
    In (CallDetectMultiScale eyeCascade (gocv.Region m r)) (calls w) /\
    forall e, In e (DetectMultiScale w eyeCascade (gocv.Region m r)) ->
      exists g,
        In (CallRectangle g blue 2) (calls w) /\
        X (Min g) = goint.add (X (Min e)) (X (Min r)) /\
        Y (Min g) = goint.add (Y (Min e)) (Y (Min r)) /\
        X (Max g) = goint.add (X (Max e)) (X (Min r)) /\
        Y (Max g) = goint.add (Y (Max e)) (Y (Min r)) /\
        (goint.in_range (X (Min e) + X (Min r)) -> X (Min g) = X (Min e) + X (Min r)) /\
        (goint.in_range (Y (Min e) + Y (Min r)) -> Y (Min g) = Y (Min e) + Y (Min r)) /\
        (goint.in_range (X (Max e) + X (Min r)) -> X (Max g) = X (Max e) + X (Min r)) /\
        (goint.in_range (Y (Max e) + Y (Min r)) -> Y (Max g) = Y (Max e) + Y (Min r)).
Proof.
  intros Hread Hr Hok.
  destruct (calls_haar_block w f Hread r Hr) as (m & pre & post & E).
  rewrite (haarBody_accept w r m Hok) in E. cbv zeta in E.
  eexists. split.
  - rewrite E, !in_app_iff. simpl. eauto 10.
  - intros e He. exists (offsetEye r e). split.
    + rewrite E, !in_app_iff, in_map_iff. unfold eyeCall. eauto 10.
    + rewrite offsetEye_fields. simpl. split_and!; try done; apply add_exact.
Qed.

Lemma eye_box_offset_by_face_origin_on_all_four_fields_witness :
  exists m,
    In (CallDetectMultiScale eyeCascade (gocv.Region m face250)) (calls sampleWorld) /\
    forall e, In e (DetectMultiScale sampleWorld eyeCascade (gocv.Region m face250)) ->
      exists g,
        In (CallRectangle g blue 2) (calls sampleWorld) /\
        X (Min g) = goint.add (X (Min e)) (X (Min face250)) /\
        Y (Min g) = goint.add (Y (Min e)) (Y (Min face250)) /\
        X (Max g) = goint.add (X (Max e)) (X (Min face250)) /\
        Y (Max g) = goint.add (Y (Max e)) (Y (Min face250)) /\
        (goint.in_range (X (Min e) + X (Min face250)) ->
           X (Min g) = X (Min e) + X (Min face250)) /\
        (goint.in_range (Y (Min e) + Y (Min face250)) ->
           Y (Min g) = Y (Min e) + Y (Min face250)) /\
        (goint.in_range (X (Max e) + X (Min face250)) ->
           X (Max g) = X (Max e) + X (Min face250)) /\
        (goint.in_range (Y (Max e) + Y (Min face250)) ->
           Y (Max g) = Y (Max e) + Y (Min face250)).
Proof.
  apply (eye_box_offset_by_face_origin_on_all_four_fields sampleWorld frame0 face250).
  - reflexivity.
  - simpl. auto.
  - vm_compute. reflexivity.
Defined.

(** ** What the classifiers are given *)

(** The eye classifier only ever sees a region of the colour frame as drawn
    on so far. *)
Lemma eye_classifier_input (w : World) (f : gocv.Frame) (m : gocv.Mat) :
  webcam_Read w = Some f ->
  In (CallDetectMultiScale eyeCascade m) (calls w) ->
  exists r drawn,
    m = gocv.Region drawn r /\
    drawnOn (gocv.Captured f) drawn /\
    In r (DetectMultiScale w haarFaceCascade (grayOf f)) /\
    faceSizeOk r = true.
Proof.
  intros Hread Hin.
  by_pass Hin Hread r m' Hr Hincl Hdrawn; try discriminate Hin.
  - apply haarBody_in in Hin. destruct Hin as [Hok Hin]. cbv zeta in Hin.
    destruct Hin as [E|[E|[E|[E|(e & He & E)]]]]; unfold eyeCall in E;
      try discriminate E.
    injection E as ->. eexists r, _. split_and!; [done| |done..].
    do 2 constructor. exact Hdrawn.
  - apply in_lbpCalls in Hin. destruct Hin as [E|E]; discriminate E.
  - apply respond_not_vision in Hin. discriminate Hin.
Qed.

Lemma eye_classifier_input_channels (w : World) (f : gocv.Frame) (m : gocv.Mat) :
  webcam_Read w = Some f ->
  In (CallDetectMultiScale eyeCascade m) (calls w) ->
  gocv.Channels m = 3 /\ forall r, m <> gocv.Region (grayOf f) r.
Proof.
  intros Hread Hin.
  destruct (eye_classifier_input w f m Hread Hin) as (r & drawn & -> & Hd & _ & _).
  split.
  - simpl. by rewrite (drawnOn_Channels _ _ Hd).
  - intros r' E. injection E as E _. subst drawn. inversion Hd.
Qed.

(** The two face classifiers are run on the grayscale copy, once each. *)
Lemma face_classifier_input (w : World) (f : gocv.Frame)
  (c : gocv.CascadeClassifier) (m : gocv.Mat) :
  webcam_Read w = Some f ->
  In (CallDetectMultiScale c m) (calls w) ->
  c = haarFaceCascade \/ c = lbpFaceCascade ->
  m = grayOf f /\ gocv.Channels m = 1.
Proof.
  intros Hread Hin Hc.
  by_pass Hin Hread r m' Hr Hincl Hdrawn; try discriminate Hin.
  - injection Hin as _ ->. done.
  - apply haarBody_in in Hin. destruct Hin as [Hok Hin]. cbv zeta in Hin.
    destruct Hin as [E|[E|[E|[E|(e & He & E)]]]]; unfold eyeCall in E;
      try discriminate E.
    injection E as -> _. destruct Hc as [Hc|Hc]; discriminate Hc.
  - injection Hin as _ ->. done.
  - apply in_lbpCalls in Hin. destruct Hin as [E|E]; discriminate E.
  - apply respond_not_vision in Hin. discriminate Hin.
Qed.

(** C3, at the sample request: the face 250 wide is accepted, and the eye
    classifier is run on the region of the three-channel colour frame onto
    which the green rectangle and label have just been drawn; it is not run
    on the region of the grayscale copy. *)
Theorem eye_classifier_runs_on_colour_region_of_sample :
  let drawn :=
    gocv.PutText (gocv.Rectangle (gocv.Captured frame0) face250 green 2)
                 "Size: 250x250" (Pt 100 90) font 1 green 2 in
  faceSizeOk face250 = true /\
  In (CallDetectMultiScale eyeCascade (gocv.Region drawn face250)) (calls sampleWorld) /\
  gocv.Channels (gocv.Region drawn face250) = 3 /\
  gocv.Channels (grayOf frame0) = 1 /\
  ~ In (CallDetectMultiScale eyeCascade (gocv.Region (grayOf frame0) face250))
       (calls sampleWorld) /\
  (forall m, In (CallDetectMultiScale eyeCascade m) (calls sampleWorld) ->
             gocv.Channels m = 3).
Proof.
  cbv zeta. split_and!.
  - vm_compute. reflexivity.
  - vm_compute. auto 20.
  - reflexivity.
  - reflexivity.
  - intros Hin.
    destruct (eye_classifier_input_channels sampleWorld frame0 _ eq_refl Hin) as [_ Hne].
    by apply (Hne face250).
  - intros m Hin.
    by destruct (eye_classifier_input_channels sampleWorld frame0 _ eq_refl Hin).
Qed.

(** ** The LBP pass *)

(** C4: whenever a frame was read, whatever the Haar pass found, the LBP
    classifier is run on the grayscale copy of the captured frame, the very
    [Mat] the Haar classifier was run on, and every box it returns is drawn
    in red and labelled: the calls after the LBP run are the two drawing
    calls of each box, in order, one pair per returned box, with no test on
    its size and no comparison with the Haar boxes. *)
Theorem lbp_pass_unconditional_and_unfiltered (w : World) (f : gocv.Frame) :
  webcam_Read w = Some f ->
  let gray := grayOf f in
  let lbpRects := DetectMultiScale w lbpFaceCascade gray in
  In (CallDetectMultiScale haarFaceCascade gray) (calls w) /\
  (exists pre,
     calls w = pre ++ CallDetectMultiScale lbpFaceCascade gray ::
               flat_map lbpCalls lbpRects ++ snd (respond w (annotated w f))) /\
  (forall r, In r lbpRects ->
     In (CallRectangle r red 2) (calls w) /\
     In (CallPutText (sizeText r) (textOrg r) font 1 red 2) (calls w)) /\
  (forall r, In r lbpRects -> faceSizeOk r = false -> In (CallRectangle r red 2) (calls w)) /\
  (forall r, In r lbpRects ->
     In (CallRectangle r green 2) (calls w) -> In (CallRectangle r red 2) (calls w)).
Proof.
  intros Hread gray lbpRects.
  assert (Hred : forall r, In r lbpRects ->
            In (CallRectangle r red 2) (calls w) /\
            In (CallPutText (sizeText r) (textOrg r) font 1 red 2) (calls w)).
  { intros r Hr. rewrite (calls_read_ok w f Hread).
    assert (Hsub : incl (lbpCalls r) (flat_map lbpCalls lbpRects)).
    { intros c Hc. apply in_flat_map. eauto. }
    split; do 3 right; apply in_or_app; right; right;
      apply in_or_app; left; apply Hsub; simpl; auto. }
  split_and!.
  - rewrite (calls_read_ok w f Hread). simpl. auto.
  - rewrite (calls_read_ok w f Hread).
    exists (CallRead :: CallCvtColor (gocv.Captured f) gocv.ColorBGRToGray ::
            CallDetectMultiScale haarFaceCascade (grayOf f) ::
            snd (haarLoop w (DetectMultiScale w haarFaceCascade (grayOf f))
                   (gocv.Captured f))).
    reflexivity.
  - exact Hred.
  - intros r Hr _. by apply Hred.
  - intros r Hr _. by apply Hred.
Qed.

Lemma lbp_pass_unconditional_and_unfiltered_witness :
  In (CallRectangle lbp20 red 2) (calls sampleWorld) /\
  In (CallPutText "Size: 20x20" (Pt 5 (-5)) font 1 red 2) (calls sampleWorld).
Proof.
  pose proof (lbp_pass_unconditional_and_unfiltered sampleWorld frame0 eq_refl)
    as (_ & _ & Hdrawn & _).
  apply (Hdrawn lbp20). simpl. auto.
Defined.

(** ** What is drawn for each kind of box *)

Lemma followedBy_app (c c' : Call) (pre l post : list Call) :
  followedBy c c' l -> followedBy c c' (pre ++ l ++ post).
Proof.
  intros (p & q & ->). exists (pre ++ p), (q ++ post).
  rewrite <- !app_assoc. reflexivity.
Qed.

(** Every label of a request is the size label of an accepted Haar
    candidate, in green, or of an LBP box, in red. *)
Lemma label_origin (w : World) (f : gocv.Frame)
  (text : string) (org : Point) (fnt : gocv.HersheyFont) (scale : Q)
  (c : color.RGBA) (th : Z) :
  webcam_Read w = Some f ->
  In (CallPutText text org fnt scale c th) (calls w) ->
  exists r,
    text = sizeText r /\ org = textOrg r /\ fnt = font /\ scale = 1%Q /\ th = 2 /\
    ((c = green /\ In r (DetectMultiScale w haarFaceCascade (grayOf f)) /\
      faceSizeOk r = true) \/
     (c = red /\ In r (DetectMultiScale w lbpFaceCascade (grayOf f)))).
Proof.
  intros Hread Hin.
  by_pass Hin Hread r m Hr Hincl Hdrawn; try discriminate Hin.
  - apply haarBody_in in Hin. destruct Hin as [Hok Hin]. cbv zeta in Hin.
    destruct Hin as [E|[E|[E|[E|(e & He & E)]]]]; unfold eyeCall in E;
      try discriminate E.
    exists r. assert (text = sizeText r) by congruence.
    assert (org = textOrg r) by congruence.
    assert (c = green) by congruence.
    split_and!; try done; try congruence. left. done.
  - apply in_lbpCalls in Hin. destruct Hin as [E|E]; try discriminate E.
    exists r. assert (text = sizeText r) by congruence.
    assert (org = textOrg r) by congruence.
    assert (c = red) by congruence.
    split_and!; try done; try congruence. right. done.
  - apply respond_not_vision in Hin. discriminate Hin.
Qed.

(** C5, as stated, fails at the sample request: the eye found in the face
    250 wide is outlined in blue at (150,160)-(190,200), but the request
    draws no label with the size of that box and no label in blue at all. *)
Lemma eye_box_of_sample_is_drawn_without_label :
  let eyeBox := box 150 160 190 200 in
  In (CallRectangle eyeBox blue 2) (calls sampleWorld) /\
  sizeText eyeBox = "Size: 40x40" /\
  ~ (exists org fnt scale c th,
       In (CallPutText (sizeText eyeBox) org fnt scale c th) (calls sampleWorld)) /\
  ~ (exists text org fnt scale th,
       In (CallPutText text org fnt scale blue th) (calls sampleWorld)).
Proof.
  cbv zeta. split_and!.
  - vm_compute. auto 20.
  - vm_compute. reflexivity.
  - intros (org & fnt & scale & c & th & Hin).
    destruct (label_origin sampleWorld frame0 _ _ _ _ _ _ eq_refl Hin)
      as (r & Ht & _ & _ & _ & _ & [(_ & Hr & _)|(_ & Hr)]);
      simpl in Hr; repeat (destruct Hr as [<-|Hr]; [vm_compute in Ht; discriminate Ht|]);
      destruct Hr.
  - intros (text & org & fnt & scale & th & Hin).
    destruct (label_origin sampleWorld frame0 _ _ _ _ _ _ eq_refl Hin)
      as (r & _ & _ & _ & _ & _ & [(Hc & _)|(Hc & _)]); discriminate Hc.
Qed.

(** C5, amended: every accepted Haar face is outlined in green and every
    LBP face in red, and the outline is directly followed by the label
    "Size: {width}x{height}" of that box, in the same colour, at
    [(Min.X, Min.Y - 10)]; every eye is outlined in blue and nothing else is
    drawn for it: no label of the request is blue. *)
Theorem faces_outlined_and_labelled_eyes_outlined_only (w : World) (f : gocv.Frame) :
  webcam_Read w = Some f ->
  (forall r, In r (DetectMultiScale w haarFaceCascade (grayOf f)) ->
     faceSizeOk r = true ->
     followedBy (CallRectangle r green 2)
                (CallPutText (sizeText r) (textOrg r) font 1 green 2) (calls w)) /\
  (forall r, In r (DetectMultiScale w lbpFaceCascade (grayOf f)) ->
     followedBy (CallRectangle r red 2)
                (CallPutText (sizeText r) (textOrg r) font 1 red 2) (calls w)) /\
  (forall r, In r (DetectMultiScale w haarFaceCascade (grayOf f)) ->
     faceSizeOk r = true ->
     exists m,
       In (CallDetectMultiScale eyeCascade (gocv.Region m r)) (calls w) /\
       forall e, In e (DetectMultiScale w eyeCascade (gocv.Region m r)) ->
                 In (CallRectangle (offsetEye r e) blue 2) (calls w)) /\
  (forall text org fnt scale c th,
     In (CallPutText text org fnt scale c th) (calls w) ->
     c <> blue /\ (c = green \/ c = red) /\
     exists r, text = sizeText r /\ org = textOrg r) /\
  (forall r,
     sizeText r = "Size: " +:+ pretty (X (Size r)) +:+ "x" +:+ pretty (Y (Size r)) /\
     X (textOrg r) = X (Min r) /\
     (goint.in_range (Y (Min r) - 10) -> Y (textOrg r) = Y (Min r) - 10)).
Proof.
  intros Hread. split_and!.
  - intros r Hr Hok.
    destruct (calls_haar_block w f Hread r Hr) as (m & pre & post & ->).
    rewrite (haarBody_accept w r m Hok). cbv zeta.
    apply followedBy_app. exists []. eexists. reflexivity.
  - intros r Hr.
    destruct (calls_lbp_block w f Hread r Hr) as (pre & post & ->).
    apply followedBy_app. exists [], []. reflexivity.
  - intros r Hr Hok.
    destruct (calls_haar_block w f Hread r Hr) as (m & pre & post & E).
    rewrite (haarBody_accept w r m Hok) in E. cbv zeta in E.
    eexists. split.
    + rewrite E, !in_app_iff. simpl. eauto 10.
    + intros e He. rewrite E, !in_app_iff, in_map_iff. unfold eyeCall. eauto 10.
  - intros text org fnt scale c th Hin.
    destruct (label_origin w f _ _ _ _ _ _ Hread Hin)
      as (r & Ht & Ho & _ & _ & _ & [(-> & _)|(-> & _)]);
      split_and!; eauto; discriminate.
  - intros r. split_and!; [reflexivity..|]. apply sub_exact.
Qed.

Lemma faces_outlined_and_labelled_eyes_outlined_only_witness :
  followedBy (CallRectangle face250 green 2)
             (CallPutText "Size: 250x250" (Pt 100 90) font 1 green 2) (calls sampleWorld) /\
  followedBy (CallRectangle lbp270 red 2)
             (CallPutText "Size: 270x275" (Pt 90 85) font 1 red 2) (calls sampleWorld).
Proof.
  pose proof (faces_outlined_and_labelled_eyes_outlined_only sampleWorld frame0 eq_refl)
    as (Hhaar & Hlbp & _).
  split.
  - apply (Hhaar face250); [simpl; auto | vm_compute; reflexivity].
  - apply (Hlbp lbp270). simpl. auto.
Defined.

(** ** Failures *)

(** C6: when [webcam.Read] fails the handler makes two calls only, the read
    itself and the print of the "Device closed" line: no colour conversion,
    no classifier run, no drawing, no encoding, no decoding and no write to
    the response, whose body and header stay empty. *)
Theorem read_failure_runs_no_pipeline_and_writes_no_body (w : World) :
  webcam_Read w = None ->
  calls w = [CallRead; CallPrint ("Device closed: 0" +:+ newline)] /\
  Body (response w) = [] /\
  Header (response w) = ∅ /\
  (forall c, In c (calls w) ->
     isVisionCall c = false /\
     (forall ext m, c <> CallIMEncode ext m) /\
     (forall b, c <> CallDecode b) /\
     (forall k v, c <> CallHeaderSet k v) /\
     (forall m o, c <> CallJpegEncode m o)).
Proof.
  intros Hread.
  assert (E : handleRequest w =
              (emptyResponse, [CallRead; CallPrint ("Device closed: 0" +:+ newline)])).
  { unfold handleRequest. rewrite Hread. reflexivity. }
  unfold calls, response. rewrite E. simpl. split_and!; try reflexivity.
  intros c [<-|[<-|[]]]; split_and!; intros; try reflexivity; discriminate.
Qed.

Lemma read_failure_runs_no_pipeline_and_writes_no_body_witness :
  calls closedWorld = [CallRead; CallPrint ("Device closed: 0" +:+ newline)] /\
  Body (response closedWorld) = [].
Proof.
  pose proof (read_failure_runs_no_pipeline_and_writes_no_body closedWorld eq_refl)
    as (Hcalls & Hbody & _).
  split; [exact Hcalls | exact Hbody].
Defined.

(** The response of a request whose read succeeded, by the outcome of the
    encoder, the decoder and the second encoder. *)
Lemma respond_encode_error (w : World) (m : gocv.Mat) (e : error) :
  IMEncode w ".jpg" m = Err e ->
  respond w m =
    (emptyResponse,
     [CallIMEncode ".jpg" m; CallPrint ("Error encoding frame: " +:+ e +:+ newline)]).
Proof. intros E. unfold respond. by rewrite E. Qed.

Lemma respond_decode_error (w : World) (m : gocv.Mat) (buf : list Byte.byte) (e : error) :
  IMEncode w ".jpg" m = Ok buf ->
  image_Decode w buf = Err e ->
  respond w m =
    (emptyResponse,
     [CallIMEncode ".jpg" m; CallDecode buf;
      CallPrint ("Error decoding frame: " +:+ e +:+ newline)]).
Proof. intros E1 E2. unfold respond. by rewrite E1, E2. Qed.

Lemma respond_decoded (w : World) (m : gocv.Mat) (buf : list Byte.byte) (out : Image) :
  IMEncode w ".jpg" m = Ok buf ->
  image_Decode w buf = Ok out ->
  respond w m =
    (mkResponse {["Content-Type" := ["image/jpeg"]]} (fst (jpeg_Encode w out None)),
     [CallIMEncode ".jpg" m; CallDecode buf;
      CallHeaderSet "Content-Type" "image/jpeg"; CallJpegEncode out None] ++
     match snd (jpeg_Encode w out None) with
     | Some e => [CallPrint ("Error writing image to response: " +:+ e +:+ newline)]
     | None => []
     end).
Proof.
  intros E1 E2. unfold respond. rewrite E1, E2.
  destruct (jpeg_Encode w out None) as [written err]. reflexivity.
Qed.

(** C7, as stated, fails when the response writer breaks while [jpeg.Encode]
    streams the frame into it: the encoding of the annotated frame fails,
    the handler prints the error, and the two bytes written before the
    failure are in the body of the response. *)
Lemma failed_encode_leaves_partial_image_in_body :
  encodingFails truncatedWorld frame0 /\
  In (CallPrint ("Error writing image to response: " +:+ brokenPipe +:+ newline))
     (calls truncatedWorld) /\
  Body (response truncatedWorld) = [Byte.xff; Byte.xd8] /\
  ~ (encodingFails truncatedWorld frame0 -> Body (response truncatedWorld) = []).
Proof.
  assert (Hfail : encodingFails truncatedWorld frame0).
  { right. exists sampleEncoded, sampleImage, brokenPipe. by split_and!. }
  split_and!.
  - exact Hfail.
  - vm_compute. auto 30.
  - reflexivity.
  - intros H. specialize (H Hfail). discriminate H.
Qed.

(** C7, amended: when [gocv.IMEncode] fails nothing is written, the body and
    the header of the response stay empty and [jpeg.Encode] is not called.
    Once the frame was encoded and decoded, the body is exactly what
    [jpeg.Encode] wrote into the response writer: the whole image when it
    returns no error, the bytes written before the failure when it returns
    one. *)
Theorem response_body_after_encoding (w : World) (f : gocv.Frame) :
  webcam_Read w = Some f ->
  (forall e, IMEncode w ".jpg" (annotated w f) = Err e ->
     Body (response w) = [] /\ Header (response w) = ∅ /\
     (forall m o, ~ In (CallJpegEncode m o) (calls w)) /\
     In (CallPrint ("Error encoding frame: " +:+ e +:+ newline)) (calls w)) /\
  (forall buf out,
     IMEncode w ".jpg" (annotated w f) = Ok buf ->
     image_Decode w buf = Ok out ->
     Body (response w) = fst (jpeg_Encode w out None) /\
     (forall e, snd (jpeg_Encode w out None) = Some e ->
        In (CallPrint ("Error writing image to response: " +:+ e +:+ newline)) (calls w))).
Proof.
  intros Hread. split.
  - intros e He.
    rewrite (response_read_ok w f Hread), (respond_encode_error w _ e He). simpl.
    split_and!; [done..| |].
    + intros m o Hin. by_pass Hin Hread r m' Hr Hincl Hdrawn; try discriminate Hin.
      * apply haarBody_in in Hin. destruct Hin as [_ Hin]. cbv zeta in Hin.
        destruct Hin as [E|[E|[E|[E|(e' & _ & E)]]]]; discriminate E.
      * apply in_lbpCalls in Hin. destruct Hin as [E|E]; discriminate E.
      * rewrite (respond_encode_error w _ e He) in Hin. simpl in Hin.
        destruct Hin as [E|[E|[]]]; discriminate E.
    + rewrite (calls_read_ok w f Hread), (respond_encode_error w _ e He).
      do 3 right. apply in_or_app. right. right. apply in_or_app. right.
      simpl. auto.
  - intros buf out Hbuf Hout.
    rewrite (response_read_ok w f Hread), (respond_decoded w _ buf out Hbuf Hout).
    split; [reflexivity|].
    intros e He. rewrite (calls_read_ok w f Hread), (respond_decoded w _ buf out Hbuf Hout).
    rewrite He.
    do 3 right. apply in_or_app. right. right. apply in_or_app. right.
    simpl. auto 10.
Qed.

Lemma response_body_after_encoding_witness :
  Body (response encodeFailWorld) = [] /\
  Body (response sampleWorld) = sampleReencoded /\
  Body (response truncatedWorld) = [Byte.xff; Byte.xd8].
Proof.
  pose proof (response_body_after_encoding encodeFailWorld frame0 eq_refl) as (Hfail & _).
  pose proof (response_body_after_encoding sampleWorld frame0 eq_refl) as (_ & Hok).
  pose proof (response_body_after_encoding truncatedWorld frame0 eq_refl) as (_ & Hcut).
  destruct (Hfail "OpenCV: encode failed"%string eq_refl) as (H1 & _).
  destruct (Hok sampleEncoded sampleImage eq_refl eq_refl) as (H2 & _).
  destruct (Hcut sampleEncoded sampleImage eq_refl eq_refl) as (H3 & _).
  split; [exact H1|]. split; [exact H2 | exact H3].
Defined.

(** ** Decoding and re-encoding *)

(** C10: the bytes of [gocv.IMEncode] are not written to the response.  They
    are decoded with [image.Decode]; when that fails the handler prints the
    error and returns, the body is empty, no header is set and [jpeg.Encode]
    is not called; when it succeeds the handler sets [Content-Type], calls
    [jpeg.Encode] on the decoded image with [nil] options, and the body is
    what that call wrote. *)
Theorem body_is_reencoding_of_decoded_frame
  (w : World) (f : gocv.Frame) (buf : list Byte.byte) :
  webcam_Read w = Some f ->
  IMEncode w ".jpg" (annotated w f) = Ok buf ->
  In (CallDecode buf) (calls w) /\
  (forall e, image_Decode w buf = Err e ->
     Body (response w) = [] /\
     Header (response w) !! "Content-Type" = None /\
     Header (response w) = ∅ /\
     snd (respond w (annotated w f)) =
       [CallIMEncode ".jpg" (annotated w f); CallDecode buf;
        CallPrint ("Error decoding frame: " +:+ e +:+ newline)]) /\
  (forall out, image_Decode w buf = Ok out ->
     Body (response w) = fst (jpeg_Encode w out None) /\
     Header (response w) !! "Content-Type" = Some ["image/jpeg"] /\
     followedBy (CallDecode buf) (CallHeaderSet "Content-Type" "image/jpeg") (calls w) /\
     followedBy (CallHeaderSet "Content-Type" "image/jpeg") (CallJpegEncode out None)
                (calls w)).
Proof.
  intros Hread Hbuf.
  pose proof (calls_read_ok w f Hread) as Ecalls.
  pose proof (response_read_ok w f Hread) as Eresp.
  match type of Ecalls with _ = ?a :: ?b :: ?c :: ?l ++ ?d :: ?l' ++ ?t =>
    assert (Esplit : calls w = (a :: b :: c :: l ++ d :: l') ++ t ++ [])
      by (rewrite Ecalls, app_nil_r; simpl; rewrite <- app_assoc; reflexivity)
  end.
  split_and!.
  - rewrite Esplit, !in_app_iff. right. left.
    destruct (image_Decode w buf) as [out|e] eqn:Hdec.
    + rewrite (respond_decoded w _ buf out Hbuf Hdec). simpl. auto.
    + rewrite (respond_decode_error w _ buf e Hbuf Hdec). simpl. auto.
  - intros e Hdec. rewrite Eresp, (respond_decode_error w _ buf e Hbuf Hdec).
    simpl. split_and!; reflexivity.
  - intros out Hdec. split_and!.
    + rewrite Eresp, (respond_decoded w _ buf out Hbuf Hdec). reflexivity.
    + rewrite Eresp, (respond_decoded w _ buf out Hbuf Hdec). reflexivity.
    + rewrite Esplit, (respond_decoded w _ buf out Hbuf Hdec). cbn [snd].
      apply followedBy_app. exists [CallIMEncode ".jpg" (annotated w f)]. eexists.
      reflexivity.
    + rewrite Esplit, (respond_decoded w _ buf out Hbuf Hdec). cbn [snd].
      apply followedBy_app.
      exists [CallIMEncode ".jpg" (annotated w f); CallDecode buf]. eexists.
      reflexivity.
Qed.

Lemma body_is_reencoding_of_decoded_frame_witness :
  Body (response sampleWorld) = sampleReencoded /\
  Body (response sampleWorld) <> sampleEncoded /\
  Body (response decodeFailWorld) = [] /\
  Header (response decodeFailWorld) !! "Content-Type" = None.
Proof.
  pose proof (body_is_reencoding_of_decoded_frame sampleWorld frame0 sampleEncoded
                eq_refl eq_refl) as (_ & _ & Hok).
  pose proof (body_is_reencoding_of_decoded_frame decodeFailWorld frame0 sampleEncoded
                eq_refl eq_refl) as (_ & Herr & _).
  destruct (Hok sampleImage eq_refl) as (Hbody & _).
  destruct (Herr "image: unknown format"%string eq_refl) as (Hnobody & Hnohdr & _).
  split_and!; [exact Hbody | rewrite Hbody; discriminate | exact Hnobody | exact Hnohdr].
Defined.

(** ** Eye boxes lie inside their face *)

Lemma inside_trans (a b c : Rectangle) : inside a b -> inside b c -> inside a c.
Proof. unfold inside. lia. Qed.

(** An offset within the extent of a well-formed box does not wrap and
    stays between the two ends of the box. *)
Lemma offset_within (lo hi a b : Z) :
  goint.in_range lo -> goint.in_range hi -> lo <= hi ->
  0 <= a <= b -> b <= goint.sub hi lo ->
  lo <= goint.add a lo /\ goint.add a lo <= goint.add b lo /\ goint.add b lo <= hi.
Proof.
  intros Hlo Hhi Hle Hab Hb.
  rewrite (sub_nonneg_exact hi lo) in Hb by (try done; lia).
  unfold goint.in_range, goint.min_int, goint.max_int in *.
  rewrite !add_exact by (unfold goint.in_range, goint.min_int, goint.max_int; lia).
  lia.
Qed.

Lemma offsetEye_inside (r e : Rectangle) (m : gocv.Mat) :
  wellFormed r -> withinMat e (gocv.Region m r) -> inside (offsetEye r e) r.
Proof.
  unfold wellFormed, withinMat. simpl.
  intros (HminX & HminY & HmaxX & HmaxY & HX & HY) (HeX & HeX' & HeY & HeY').
  destruct (offset_within _ _ _ _ HminX HmaxX HX HeX HeX') as (? & ? & ?).
  destruct (offset_within _ _ _ _ HminY HmaxY HY HeY HeY') as (? & ? & ?).
  rewrite offsetEye_fields. unfold inside. simpl. lia.
Qed.

(** C9: when the Haar boxes are well-formed rectangles and the eye
    classifier returns, for each region it is run on, boxes within that
    region ([0 <= Min <= Max <= (Cols, Rows)]), every eye box drawn, in
    frame coordinates, lies inside the accepted Haar face it was found in,
    and inside the frame when that face does. *)
Theorem eye_box_inside_parent_face (w : World) (f : gocv.Frame) :
  webcam_Read w = Some f ->
  (forall r, In r (DetectMultiScale w haarFaceCascade (grayOf f)) -> wellFormed r) ->
  (forall m e, In (CallDetectMultiScale eyeCascade m) (calls w) ->
               In e (DetectMultiScale w eyeCascade m) -> withinMat e m) ->
  forall g th, In (CallRectangle g blue th) (calls w) ->
    exists r e,
      In r (DetectMultiScale w haarFaceCascade (grayOf f)) /\
      minFaceSize < X (Size r) < maxFaceSize /\
      g = offsetEye r e /\
      inside g r /\
      (inside r (frameBounds f) -> inside g (frameBounds f)).
Proof.
  intros Hread Hwf Heyes g th Hin.
  destruct (blue_rectangle_origin w f g th Hread Hin)
    as (r & m & e & Hr & Hok & Hcall & He & -> & _).
  assert (Hinside : inside (offsetEye r e) r).
  { apply (offsetEye_inside r e m); [by apply Hwf | by apply Heyes]. }
  exists r, e.
  split; [done|]. split; [by apply faceSizeOk_spec|]. split; [done|].
  split; [done|]. intros Hframe. by apply (inside_trans _ r).
Qed.

Lemma eye_box_inside_parent_face_witness :
  exists r e,
    In r (DetectMultiScale sampleWorld haarFaceCascade (grayOf frame0)) /\
    minFaceSize < X (Size r) < maxFaceSize /\
    box 150 160 190 200 = offsetEye r e /\
    inside (box 150 160 190 200) r /\
    (inside r (frameBounds frame0) -> inside (box 150 160 190 200) (frameBounds frame0)).
Proof.
  apply (eye_box_inside_parent_face sampleWorld frame0 eq_refl) with (th := 2).
  - intros r [<-|[<-|[<-|[]]]]; vm_compute; repeat split; discriminate.
  - intros m e Hcall He.
    destruct (eye_classifier_input sampleWorld frame0 m eq_refl Hcall)
      as (r & drawn & -> & _ & Hr & Hok).
    destruct He as [<-|[]].
    destruct Hr as [<-|[<-|[<-|[]]]]; try discriminate Hok.
    vm_compute. repeat split; discriminate.
  - vm_compute. auto 20.
Defined.

(** ** Two requests at the same time *)

Lemma calls_begin_with_read (w : World) : exists rest, calls w = CallRead :: rest.
Proof.
  destruct (webcam_Read w) as [f|] eqn:Hread.
  - rewrite (calls_read_ok w f Hread). eauto.
  - unfold calls, handleRequest. rewrite Hread. simpl. eauto.
Qed.

(** Running the first goroutine to its end and then the second is a run. *)
Lemma runs_one_after_the_other (t1 t2 : list Event) : runs (mkPool t1 t2) (t1 ++ t2).
Proof.
  induction t1 as [|e t1 IH]; simpl.
  - induction t2 as [|e t2 IH]; [constructor|].
    apply (runs_step _ e (mkPool [] t2)); [constructor|exact IH].
  - apply (runs_step _ e (mkPool t1 t2)); [constructor|exact IH].
Qed.

(** Two goroutines that both begin with [webcam.Read] have a run in which
    the second read is invoked before the first has returned. *)
Lemma overlapping_run (rest1 rest2 : list Call) :
  let h := Invoke G1 CallRead :: Invoke G2 CallRead ::
           Return G1 CallRead :: Return G2 CallRead ::
           steps G1 rest1 ++ steps G2 rest2 in
  runs (mkPool (steps G1 (CallRead :: rest1)) (steps G2 (CallRead :: rest2))) h /\
  readsSerialized false h = false.
Proof.
  cbv zeta. split; [|reflexivity]. simpl.
  eapply runs_step; [apply step_G1|].
  eapply runs_step; [apply step_G2|].
  eapply runs_step; [apply step_G1|].
  eapply runs_step; [apply step_G2|].
  apply runs_one_after_the_other.
Qed.

(** The measure is not void: when one goroutine runs to its end before the
    other starts, the reads are serialized. *)
Lemma steps_serialized (g : Goroutine) (cs : list Call) (h : list Event) :
  readsSerialized false (steps g cs ++ h) = readsSerialized false h.
Proof.
  induction cs as [|c cs IH]; [done|].
  unfold steps in *. simpl. destruct c; exact IH.
Qed.

Lemma sequential_run_serialized (w1 w2 : World) :
  runs (concurrentRequests w1 w2) (steps G1 (calls w1) ++ steps G2 (calls w2)) /\
  readsSerialized false (steps G1 (calls w1) ++ steps G2 (calls w2)) = true.
Proof.
  split; [apply runs_one_after_the_other|].
  rewrite steps_serialized. rewrite <- (app_nil_r (steps G2 (calls w2))).
  by rewrite steps_serialized.
Qed.

(** C8, as stated, fails: two requests served at the same time have a run
    in which both goroutines are inside [webcam.Read] at once. *)
Lemma reads_of_two_requests_not_serialized :
  ~ (forall h, runs (concurrentRequests sampleWorld sampleWorld) h ->
               readsSerialized false h = true).
Proof.
  intros Hser.
  destruct (calls_begin_with_read sampleWorld) as (rest & E).
  destruct (overlapping_run rest rest) as (Hrun & Hover).
  unfold concurrentRequests in Hser. rewrite E in Hser.
  specialize (Hser _ Hrun). rewrite Hover in Hser. discriminate Hser.
Qed.

(** C8, amended: the handler does not serialize its reads.  The first call
    of every invocation is [webcam.Read] on the shared device, with no lock
    taken before it, so any two invocations served at the same time have a
    run in which the read of the second is invoked while the read of the
    first has not returned. *)
Theorem concurrent_reads_can_overlap (w1 w2 : World) :
  (exists rest, calls w1 = CallRead :: rest) /\
  (exists rest, calls w2 = CallRead :: rest) /\
  exists h,
    runs (concurrentRequests w1 w2) h /\
    readsSerialized false h = false /\
    exists h', h = Invoke G1 CallRead :: Invoke G2 CallRead :: h'.
Proof.
  destruct (calls_begin_with_read w1) as (rest1 & E1).
  destruct (calls_begin_with_read w2) as (rest2 & E2).
  destruct (overlapping_run rest1 rest2) as (Hrun & Hover).
  split; [eauto|]. split; [eauto|].
  eexists. unfold concurrentRequests. rewrite E1, E2.
  split; [exact Hrun|]. split; [exact Hover|]. eauto.
Qed.

(** * Start-up *)

(** ** [run], outcome by outcome *)

Lemma run_open_failed (b : Boot) (e : error) :
  OpenVideoCapture b deviceID = Err e ->
  run b =
    (Some (Formatted ("opening capture device 0: " +:+ e) (Some e)),
     vars.mk None (Some e) Unassigned Unassigned Unassigned,
     [CallOpenVideoCapture deviceID]).
Proof. intros E. unfold run. rewrite E. reflexivity. Qed.

Lemma run_haar_failed (b : Boot) (cam : VideoCapture) :
  OpenVideoCapture b deviceID = Ok cam ->
  Load b haarFaceFile = false ->
  run b =
    (Some (Formatted "loading Haar face classifier: %!w(<nil>)" None),
     vars.mk (Some cam) None Empty Unassigned Unassigned,
     [CallOpenVideoCapture deviceID;
      CallNewCascadeClassifier HaarFace; CallLoad HaarFace haarFaceFile;
      CallClose (TheClassifier HaarFace); CallClose TheWebcam]).
Proof. intros E E1. unfold run, loadClassifier. rewrite E, E1. reflexivity. Qed.

Lemma run_eye_failed (b : Boot) (cam : VideoCapture) :
  OpenVideoCapture b deviceID = Ok cam ->
  Load b haarFaceFile = true ->
  Load b eyeFile = false ->
  run b =
    (Some (Formatted "loading Haar eye classifier: %!w(<nil>)" None),
     vars.mk (Some cam) None (Holding (gocv.Loaded haarFaceFile)) Empty Unassigned,
     [CallOpenVideoCapture deviceID;
      CallNewCascadeClassifier HaarFace; CallLoad HaarFace haarFaceFile;
      CallNewCascadeClassifier Eye; CallLoad Eye eyeFile;
      CallClose (TheClassifier Eye); CallClose (TheClassifier HaarFace);
      CallClose TheWebcam]).
Proof. intros E E1 E2. unfold run, loadClassifier. rewrite E, E1, E2. reflexivity. Qed.

Lemma run_lbp_failed (b : Boot) (cam : VideoCapture) :
  OpenVideoCapture b deviceID = Ok cam ->
  Load b haarFaceFile = true ->
  Load b eyeFile = true ->
  Load b lbpFaceFile = false ->
  run b =
    (Some (Formatted "loading LBP face classifier: %!w(<nil>)" None),
     vars.mk (Some cam) None (Holding (gocv.Loaded haarFaceFile))
             (Holding (gocv.Loaded eyeFile)) Empty,
     [CallOpenVideoCapture deviceID;
      CallNewCascadeClassifier HaarFace; CallLoad HaarFace haarFaceFile;
      CallNewCascadeClassifier Eye; CallLoad Eye eyeFile;
      CallNewCascadeClassifier LbpFace; CallLoad LbpFace lbpFaceFile;
      CallClose (TheClassifier LbpFace); CallClose (TheClassifier Eye);
      CallClose (TheClassifier HaarFace); CallClose TheWebcam]).
Proof.
  intros E E1 E2 E3. unfold run, loadClassifier. rewrite E, E1, E2, E3. reflexivity.
Qed.

Lemma run_served (b : Boot) (cam : VideoCapture) :
  OpenVideoCapture b deviceID = Ok cam ->
  Load b haarFaceFile = true ->
  Load b eyeFile = true ->
  Load b lbpFaceFile = true ->
  run b =
    (match ListenAndServe b listenAddr with
     | Some e => Some (FromServer e)
     | None => None
     end,
     vars.mk (Some cam) None (Holding (gocv.Loaded haarFaceFile))
             (Holding (gocv.Loaded eyeFile)) (Holding (gocv.Loaded lbpFaceFile)),
     [CallOpenVideoCapture deviceID;
      CallNewCascadeClassifier HaarFace; CallLoad HaarFace haarFaceFile;
      CallNewCascadeClassifier Eye; CallLoad Eye eyeFile;
      CallNewCascadeClassifier LbpFace; CallLoad LbpFace lbpFaceFile;
      CallInfo "Server listening at http://127.0.0.1:8888/";
      CallHandleFunc "/"; CallListenAndServe listenAddr;
      CallClose (TheClassifier LbpFace); CallClose (TheClassifier Eye);
      CallClose (TheClassifier HaarFace); CallClose TheWebcam]).
Proof.
  intros E E1 E2 E3. unfold run, loadClassifier. rewrite E, E1, E2, E3. reflexivity.
Qed.

Lemma run_outcome (b : Boot) : Outcome b.
Proof.
  destruct (OpenVideoCapture b deviceID) as [cam|e] eqn:E; [|by eapply OpenFailed].
  destruct (Load b haarFaceFile) eqn:E1; [|by eapply HaarFailed].
  destruct (Load b eyeFile) eqn:E2; [|by eapply EyeFailed].
  destruct (Load b lbpFaceFile) eqn:E3; [|by eapply LbpFailed].
  by eapply Served.
Qed.

(** Rewrites [run b] by its outcome. *)
Ltac by_outcome b :=
  destruct (run_outcome b) as [e E|cam E E1|cam E E1 E2|cam E E1 E2 E3|cam E E1 E2 E3];
  [ pose proof (run_open_failed b e E) as Hrun
  | pose proof (run_haar_failed b cam E E1) as Hrun
  | pose proof (run_eye_failed b cam E E1 E2) as Hrun
  | pose proof (run_lbp_failed b cam E E1 E2 E3) as Hrun
  | pose proof (run_served b cam E E1 E2 E3) as Hrun ].

Lemma allLoaded_three (b : Boot) :
  allLoaded b <->
  Load b haarFaceFile = true /\ Load b eyeFile = true /\ Load b lbpFaceFile = true.
Proof.
  unfold allLoaded, cascadeFiles. split.
  - intros H. split_and!; eapply H; simpl; eauto.
  - intros (H1 & H2 & H3) n file [E|[E|[E|[]]]]; injection E as <- <-; done.
Qed.

(** Proves [NoDup] of a list of distinct constructors. *)
Ltac nodup_list :=
  repeat (constructor;
          [rewrite ?elem_of_cons, ?elem_of_nil; intuition discriminate|]);
  constructor.

(** ** Release of resources *)

(** X1: on every path through [run], the calls end with the release of
    exactly what was acquired, in the reverse order of acquisition: the
    classifiers created, last first, then the device if it was opened.
    Nothing is closed earlier, nothing twice, nothing that was not
    acquired. *)
Theorem run_releases_what_it_acquired_in_reverse (b : Boot) :
  let acquired :=
    match OpenVideoCapture b deviceID with
    | Ok _ => [TheWebcam]
    | Err _ => []
    end ++ map TheClassifier (created (runCalls b)) in
  closed (runCalls b) = rev acquired /\
  NoDup (closed (runCalls b)) /\
  exists work,
    runCalls b = work ++ map CallClose (rev acquired) /\ closed work = [].
Proof.
  unfold runCalls. by_outcome b; rewrite Hrun, E; cbn.
  - split_and!; [done|constructor|]. by exists [CallOpenVideoCapture deviceID].
  - split_and!; [done|nodup_list|].
    eexists [_; _; _]. done.
  - split_and!; [done|nodup_list|].
    eexists [_; _; _; _; _]. done.
  - split_and!; [done|nodup_list|].
    eexists [_; _; _; _; _; _; _]. done.
  - split_and!; [done|nodup_list|].
    eexists [_; _; _; _; _; _; _; _; _; _]. done.
Qed.

(** ** When the server is started *)

(** X2: [run] registers the handler and starts the server exactly when the
    device opened and all three cascade files loaded.  The handler is then
    registered for the pattern "/" directly before [ListenAndServe] is
    called on 127.0.0.1:8888, after the last load; on any failure neither
    call is made. *)
Theorem server_started_iff_device_and_classifiers_ready (b : Boot) :
  ((exists addr, In (CallListenAndServe addr) (runCalls b)) <->
   deviceOpened b /\ allLoaded b) /\
  ((exists pattern, In (CallHandleFunc pattern) (runCalls b)) <->
   deviceOpened b /\ allLoaded b) /\
  (deviceOpened b /\ allLoaded b ->
   exists pre post,
     runCalls b =
       pre ++ [CallHandleFunc "/"; CallListenAndServe "127.0.0.1:8888"] ++ post /\
     loads pre = cascadeFiles /\
     loads post = [] /\ created post = []).
Proof.
  unfold runCalls, deviceOpened. rewrite allLoaded_three.
  by_outcome b; rewrite Hrun; cbn [snd].
  - split_and!.
    + split; [intros (a & [H|[]]); discriminate H|intros ((c & Hc) & _); congruence].
    + split; [intros (a & [H|[]]); discriminate H|intros ((c & Hc) & _); congruence].
    + intros ((c & Hc) & _); congruence.
  - split_and!.
    + split; [intros (a & H); repeat (destruct H as [H|H]; [discriminate H|]); destruct H
             |intros (_ & H1 & _); congruence].
    + split; [intros (a & H); repeat (destruct H as [H|H]; [discriminate H|]); destruct H
             |intros (_ & H1 & _); congruence].
    + intros (_ & H1 & _); congruence.
  - split_and!.
    + split; [intros (a & H); repeat (destruct H as [H|H]; [discriminate H|]); destruct H
             |intros (_ & _ & H2 & _); congruence].
    + split; [intros (a & H); repeat (destruct H as [H|H]; [discriminate H|]); destruct H
             |intros (_ & _ & H2 & _); congruence].
    + intros (_ & _ & H2 & _); congruence.
  - split_and!.
    + split; [intros (a & H); repeat (destruct H as [H|H]; [discriminate H|]); destruct H
             |intros (_ & _ & _ & H3); congruence].
    + split; [intros (a & H); repeat (destruct H as [H|H]; [discriminate H|]); destruct H
             |intros (_ & _ & _ & H3); congruence].
    + intros (_ & _ & _ & H3); congruence.
  - split_and!.
    + split; [intros _; eauto|intros _; eexists; simpl; eauto 15].
    + split; [intros _; eauto|intros _; eexists; simpl; eauto 15].
    + intros _. eexists [_; _; _; _; _; _; _; _], _. split_and!; reflexivity.
Qed.

Lemma server_started_iff_device_and_classifiers_ready_witness :
  exists pre post,
    runCalls goodBoot =
      pre ++ [CallHandleFunc "/"; CallListenAndServe "127.0.0.1:8888"] ++ post /\
    loads pre = cascadeFiles /\
    loads post = [] /\ created post = [].
Proof.
  pose proof (server_started_iff_device_and_classifiers_ready goodBoot) as (_ & _ & H).
  apply H. split.
  - exists (Device 0). reflexivity.
  - intros n file _. reflexivity.
Defined.

(** ** The first failure ends the start-up *)

(** X3: the cascade files are loaded in the order Haar face, eye, LBP face,
    and the loading stops at the first file that does not load: no
    classifier is created and no load attempted after a failure, and none
    at all when the device did not open. *)
Theorem loading_stops_at_first_failure (b : Boot) :
  (deviceOpened b ->
   loads (runCalls b) = untilFailure b cascadeFiles /\
   created (runCalls b) = map fst (untilFailure b cascadeFiles)) /\
  (~ deviceOpened b -> loads (runCalls b) = [] /\ created (runCalls b) = []).
Proof.
  unfold runCalls, deviceOpened, cascadeFiles.
  by_outcome b; rewrite Hrun; cbn [snd untilFailure]; rewrite ?E1, ?E2, ?E3.
  - split; [intros (c & Hc); congruence|done].
  - split; [done|intros []; eauto].
  - split; [done|intros []; eauto].
  - split; [done|intros []; eauto].
  - split; [done|intros []; eauto].
Qed.

Lemma loading_stops_at_first_failure_witness :
  loads (runCalls noEyeFileBoot) = [(HaarFace, haarFaceFile); (Eye, eyeFile)] /\
  created (runCalls noEyeFileBoot) = [HaarFace; Eye] /\
  loads (runCalls noDeviceBoot) = [].
Proof.
  pose proof (loading_stops_at_first_failure noEyeFileBoot) as (Hopen & _).
  pose proof (loading_stops_at_first_failure noDeviceBoot) as (_ & Hclosed).
  destruct Hopen as (H1 & H2); [by exists (Device 0)|].
  destruct Hclosed as (H3 & _); [intros (c & Hc); discriminate Hc|].
  split; [exact H1|]. split; [exact H2|exact H3].
Defined.

(** [run] returns [nil] only after a server that stopped with [nil]. *)
Lemma runError_nil_iff (b : Boot) :
  runError b = None <->
  deviceOpened b /\ allLoaded b /\ ListenAndServe b listenAddr = None.
Proof.
  unfold runError, deviceOpened. rewrite allLoaded_three.
  by_outcome b; rewrite Hrun; cbn [fst snd].
  - split; [discriminate|intros ((c & Hc) & _); congruence].
  - split; [discriminate|intros (_ & (H1 & _) & _); congruence].
  - split; [discriminate|intros (_ & (_ & H2 & _) & _); congruence].
  - split; [discriminate|intros (_ & (_ & _ & H3) & _); congruence].
  - destruct (ListenAndServe b listenAddr) as [e|]; split;
      [discriminate|intros (_ & _ & H); discriminate H|eauto 10|done].
Qed.

(** ** The error [run] returns *)

(** X4: [run] returns [nil] only when the server was started and stopped
    with [nil].  When the device does not open, the error returned wraps
    the error of [OpenVideoCapture] behind "opening capture device 0: ".
    When a cascade file does not load, the error is built from the
    package-level [err], which is [nil] after the successful open: it wraps
    nothing and its text ends in the bad-verb form of [nil].  The error of
    the server is returned as it is. *)
Theorem run_error_and_its_cause (b : Boot) :
  (runError b = None <->
   deviceOpened b /\ allLoaded b /\ ListenAndServe b listenAddr = None) /\
  (forall e, OpenVideoCapture b deviceID = Err e ->
     runError b = Some (Formatted ("opening capture device 0: " +:+ e) (Some e))) /\
  (deviceOpened b -> ~ allLoaded b ->
     exists kind,
       runError b = Some (Formatted ("loading " +:+ kind +:+ " classifier: %!w(<nil>)") None) /\
       vars.err (runGlobals b) = None) /\
  (forall e, runError b = Some (FromServer e) <->
     deviceOpened b /\ allLoaded b /\ ListenAndServe b listenAddr = Some e).
Proof.
  unfold runError, runGlobals, deviceOpened. setoid_rewrite allLoaded_three.
  by_outcome b; rewrite Hrun; cbn [fst snd].
  - split_and!.
    + split; [discriminate|intros ((c & Hc) & _); congruence].
    + intros e' E'. congruence.
    + intros (c & Hc). congruence.
    + intros e'. split; [discriminate|intros ((c & Hc) & _); congruence].
  - split_and!.
    + split; [discriminate|intros (_ & (H1 & _) & _); congruence].
    + intros e' E'. congruence.
    + intros _ _. by exists "Haar face"%string.
    + intros e'. split; [discriminate|intros (_ & (H1 & _) & _); congruence].
  - split_and!.
    + split; [discriminate|intros (_ & (_ & H2 & _) & _); congruence].
    + intros e' E'. congruence.
    + intros _ _. by exists "Haar eye"%string.
    + intros e'. split; [discriminate|intros (_ & (_ & H2 & _) & _); congruence].
  - split_and!.
    + split; [discriminate|intros (_ & (_ & _ & H3) & _); congruence].
    + intros e' E'. congruence.
    + intros _ _. by exists "LBP face"%string.
    + intros e'. split; [discriminate|intros (_ & (_ & _ & H3) & _); congruence].
  - split_and!.
    + destruct (ListenAndServe b listenAddr) as [e|]; split;
        [discriminate|intros (_ & _ & H); discriminate H|eauto 10|done].
    + intros e' E'. congruence.
    + intros _ []. done.
    + intros e'. destruct (ListenAndServe b listenAddr) as [e|]; split.
      * intros [= <-]. eauto 10.
      * intros (_ & _ & [= <-]). done.
      * discriminate.
      * intros (_ & _ & H). discriminate H.
Qed.

Lemma run_error_and_its_cause_witness :
  runError noDeviceBoot =
    Some (Formatted "opening capture device 0: Error opening device: 0"
                  (Some "Error opening device: 0"%string)) /\
  exists kind,
    runError noEyeFileBoot =
      Some (Formatted ("loading " +:+ kind +:+ " classifier: %!w(<nil>)") None) /\
    vars.err (runGlobals noEyeFileBoot) = None.
Proof.
  pose proof (run_error_and_its_cause noDeviceBoot) as (_ & Hopen & _).
  pose proof (run_error_and_its_cause noEyeFileBoot) as (_ & _ & Hload & _).
  split.
  - exact (Hopen _ eq_refl).
  - apply Hload.
    + by exists (Device 0).
    + intros Hall.
      assert (H : Load noEyeFileBoot eyeFile = true) by (apply (Hall Eye); simpl; auto).
      vm_compute in H. discriminate H.
Defined.

(** ** The variables the handler reads *)

(** X5: whenever [run] registers the handler, the package-level variables
    it reads are set: [webcam] holds the opened device, [err] is [nil], and
    the three classifier variables hold the classifiers loaded from the
    three cascade files, the very classifiers the handler runs.  A
    classifier variable holds a loaded classifier only if its file and all
    files before it loaded. *)
Theorem handler_registered_with_variables_set (b : Boot) :
  ((exists pattern, In (CallHandleFunc pattern) (runCalls b)) ->
   (exists cam, OpenVideoCapture b deviceID = Ok cam /\
                vars.webcam (runGlobals b) = Some cam) /\
   vars.err (runGlobals b) = None /\
   vars.haarFaceCascade (runGlobals b) = Holding haarFaceCascade /\
   vars.eyeCascade (runGlobals b) = Holding eyeCascade /\
   vars.lbpFaceCascade (runGlobals b) = Holding lbpFaceCascade) /\
  (forall n c, getClassifier n (runGlobals b) = Holding c ->
     exists file, In (n, file) (untilFailure b cascadeFiles) /\
                  Load b file = true /\ c = gocv.Loaded file).
Proof.
  unfold runCalls, runGlobals, cascadeFiles.
  by_outcome b; rewrite Hrun; cbn [fst snd untilFailure]; rewrite ?E1, ?E2, ?E3.
  - split.
    + intros (p & H). repeat (destruct H as [H|H]; [discriminate H|]). destruct H.
    + intros [] c H; discriminate H.
  - split.
    + intros (p & H). repeat (destruct H as [H|H]; [discriminate H|]). destruct H.
    + intros [] c H; discriminate H.
  - split.
    + intros (p & H). repeat (destruct H as [H|H]; [discriminate H|]). destruct H.
    + intros [] c H; try discriminate H. injection H as <-.
      exists haarFaceFile. simpl. auto.
  - split.
    + intros (p & H). repeat (destruct H as [H|H]; [discriminate H|]). destruct H.
    + intros [] c H; try discriminate H; injection H as <-.
      * exists haarFaceFile. simpl. auto.
      * exists eyeFile. simpl. auto.
  - split.
    + intros _. split_and!; try reflexivity. eauto.
    + intros [] c H; injection H as <-.
      * exists haarFaceFile. simpl. auto.
      * exists eyeFile. simpl. auto.
      * exists lbpFaceFile. simpl. auto 10.
Qed.

Lemma handler_registered_with_variables_set_witness :
  vars.webcam (runGlobals goodBoot) = Some (Device 0) /\
  vars.eyeCascade (runGlobals goodBoot) = Holding eyeCascade /\
  exists file, In (HaarFace, file) (untilFailure noEyeFileBoot cascadeFiles) /\
               Load noEyeFileBoot file = true /\
               gocv.Loaded haarFaceFile = gocv.Loaded file.
Proof.
  pose proof (handler_registered_with_variables_set goodBoot) as (Hset & _).
  pose proof (handler_registered_with_variables_set noEyeFileBoot) as (_ & Hhold).
  destruct Hset as ((cam & Hcam & Hweb) & _ & _ & Heye & _).
  { exists "/"%string. vm_compute. auto 15. }
  split; [|split; [exact Heye|]].
  - rewrite Hweb. simpl in Hcam. by injection Hcam as <-.
  - apply (Hhold HaarFace). reflexivity.
Defined.

(** ** [main] *)

(** X6: the program exits with status 1 exactly when [run] returns an
    error: the device did not open, a cascade file did not load, or the
    server stopped with an error.  It then logs "Exiting with error" with
    that error and calls [os.Exit(1)] as its last two calls, after [run]
    has released its resources.  Otherwise [main] returns, with status 0,
    and [os.Exit] is not called. *)
Theorem main_exit_status (b : Boot) :
  (snd (main b) = 0 \/ snd (main b) = 1) /\
  (snd (main b) = 0 <->
   deviceOpened b /\ allLoaded b /\ ListenAndServe b listenAddr = None) /\
  (snd (main b) = 1 ->
   exists err,
     runError b = Some err /\
     fst (main b) = runCalls b ++ [CallSlogError "Exiting with error" err; CallExit 1]) /\
  (snd (main b) = 0 ->
   fst (main b) = runCalls b /\ forall code, ~ In (CallExit code) (fst (main b))).
Proof.
  assert (Hmain : main b =
            match runError b with
            | Some err =>
                (runCalls b ++ [CallSlogError "Exiting with error" err; CallExit 1], 1)
            | None => (runCalls b, 0)
            end).
  { unfold main, runError, runCalls. by destruct (run b) as [[e g] l]. }
  assert (Hnoexit : forall code, ~ In (CallExit code) (runCalls b)).
  { intros code. unfold runCalls. by_outcome b; rewrite Hrun; cbn [snd]; intros H;
      repeat (destruct H as [H|H]; [discriminate H|]); destruct H. }
  pose proof (runError_nil_iff b) as Hnil.
  rewrite Hmain. destruct (runError b) as [err|] eqn:Herr; cbn [fst snd].
  - split_and!.
    + by right.
    + split; [discriminate|]. intros H. apply Hnil in H. discriminate H.
    + intros _. by exists err.
    + discriminate.
  - split_and!.
    + by left.
    + split; [intros _; by apply Hnil|done].
    + discriminate.
    + intros _. split; [done|exact Hnoexit].
Qed.

Lemma main_exit_status_witness :
  exists err,
    runError noEyeFileBoot = Some err /\
    fst (main noEyeFileBoot) =
      runCalls noEyeFileBoot ++ [CallSlogError "Exiting with error" err; CallExit 1].
Proof.
  pose proof (main_exit_status noEyeFileBoot) as (_ & _ & Hone & _).
  apply Hone. vm_compute. reflexivity.
Defined.

(** * More on the handler *)

(** ** The frame and the calls that drew on it *)

Lemma drawAll_app (l1 l2 : list Call) (m : gocv.Mat) :
  drawAll (l1 ++ l2) m = drawAll l2 (drawAll l1 m).
Proof. apply fold_left_app. Qed.

Lemma eyeLoop_drawAll (r : Rectangle) (eyes : list Rectangle) (m : gocv.Mat) :
  fst (eyeLoop r eyes m) = drawAll (map (eyeCall r) eyes) m.
Proof.
  revert m. induction eyes as [|e eyes IH]; intros m; simpl; [done|].
  specialize (IH (gocv.Rectangle m (offsetEye r e) blue 2)).
  destruct (eyeLoop r eyes _) as [m' cs]. exact IH.
Qed.

Lemma haarBody_drawAll (w : World) (r : Rectangle) (m : gocv.Mat) :
  fst (haarBody w r m) = drawAll (snd (haarBody w r m)) m.
Proof.
  destruct (faceSizeOk r) eqn:Hok.
  - rewrite (haarBody_accept w r m Hok). cbv zeta. unfold haarBody. rewrite Hok.
    match goal with |- context [eyeLoop r ?es ?m'] =>
      pose proof (eyeLoop_drawAll r es m') as E; destruct (eyeLoop r es m') as [m2 cs]
    end.
    simpl in E. rewrite drawAll_app. simpl. exact E.
  - by rewrite (haarBody_reject w r m Hok).
Qed.

Lemma haarLoop_drawAll (w : World) (rects : list Rectangle) (m : gocv.Mat) :
  fst (haarLoop w rects m) = drawAll (snd (haarLoop w rects m)) m.
Proof.
  revert m. induction rects as [|r rects IH]; intros m; simpl; [done|].
  pose proof (haarBody_drawAll w r m) as Hb.
  destruct (haarBody w r m) as [m1 cs1].
  specialize (IH m1). destruct (haarLoop w rects m1) as [m2 cs2]. simpl in *.
  rewrite drawAll_app. by rewrite <- Hb.
Qed.

Lemma lbpLoop_drawAll (rects : list Rectangle) (m : gocv.Mat) :
  fst (lbpLoop rects m) = drawAll (flat_map lbpCalls rects) m.
Proof.
  revert m. induction rects as [|r rects IH]; intros m; simpl; [done|].
  specialize (IH (gocv.PutText (gocv.Rectangle m r red 2)
                               (sizeText r) (textOrg r) font 1 red 2)).
  destruct (lbpLoop rects _) as [m' cs]. exact IH.
Qed.

Lemma drawAll_not_vision (l : list Call) (m : gocv.Mat) :
  (forall c, In c l -> isVisionCall c = false) -> drawAll l m = m.
Proof.
  revert m. induction l as [|c l IH]; intros m Hl; [done|].
  simpl. assert (Hc : isVisionCall c = false) by (apply Hl; simpl; auto).
  destruct c; try discriminate Hc; apply IH; intros c' Hc'; apply Hl; simpl; auto.
Qed.

Lemma annotated_loops (w : World) (f : gocv.Frame) :
  annotated w f =
    fst (lbpLoop (DetectMultiScale w lbpFaceCascade (grayOf f))
           (fst (haarLoop w (DetectMultiScale w haarFaceCascade (grayOf f))
                   (gocv.Captured f)))).
Proof.
  unfold annotated, detectAndAnnotate. fold (grayOf f).
  destruct (haarLoop w _ (gocv.Captured f)) as [m1 cs1]. simpl.
  by destruct (lbpLoop _ m1) as [m2 cs2].
Qed.

(** ** Projections of the calls of a request *)

Lemma flat_map_none {A : Type} (P : Call -> list A) (l : list Call) :
  (forall c, In c l -> P c = []) -> flat_map P l = [].
Proof.
  induction l as [|c l IH]; intros H; [done|]. simpl.
  rewrite (H c) by (simpl; auto). apply IH. intros c' Hc'. apply H. simpl. auto.
Qed.

Lemma flat_map_filter (ok : Rectangle -> bool) (rects : list Rectangle) :
  flat_map (fun r => if ok r then [r] else []) rects = List.filter ok rects.
Proof.
  induction rects as [|r rects IH]; [done|]. simpl. destruct (ok r); simpl; by rewrite IH.
Qed.

Lemma haarBody_vision (w : World) (r : Rectangle) (m : gocv.Mat) (c : Call) :
  In c (snd (haarBody w r m)) -> isVisionCall c = true.
Proof.
  intros Hin. apply haarBody_in in Hin. destruct Hin as [_ Hin]. cbv zeta in Hin.
  destruct Hin as [->|[->|[->|[->|(e & _ & ->)]]]]; reflexivity.
Qed.

Lemma haarLoop_vision (w : World) (rects : list Rectangle) (m : gocv.Mat) (c : Call) :
  In c (snd (haarLoop w rects m)) -> isVisionCall c = true.
Proof.
  intros Hin. apply haarLoop_in in Hin. destruct Hin as (r & m' & _ & Hin & _).
  by apply (haarBody_vision w r m').
Qed.

Lemma lbpCalls_vision (rects : list Rectangle) (c : Call) :
  In c (flat_map lbpCalls rects) -> isVisionCall c = true.
Proof.
  rewrite in_flat_map. intros (r & _ & Hin). apply in_lbpCalls in Hin.
  by destruct Hin as [->| ->].
Qed.

(** A projection of the calls of the Haar loop, candidate by candidate. *)
Lemma flat_map_haarLoop {A : Type} (P : Call -> list A) (g : Rectangle -> list A)
  (w : World) (rects : list Rectangle) (m : gocv.Mat) :
  (forall r m', flat_map P (snd (haarBody w r m')) = g r) ->
  flat_map P (snd (haarLoop w rects m)) = flat_map g rects.
Proof.
  intros Hbody. revert m. induction rects as [|r rects IH]; intros m; simpl; [done|].
  specialize (Hbody r m). destruct (haarBody w r m) as [m1 cs1].
  specialize (IH m1). destruct (haarLoop w rects m1) as [m2 cs2]. simpl in *.
  by rewrite flat_map_app, Hbody, IH.
Qed.

Section Projections.

Variable w : World.
Variable f : gocv.Frame.
Hypothesis Hread : webcam_Read w = Some f.

Local Abbreviation haarRects := (DetectMultiScale w haarFaceCascade (grayOf f)).
Local Abbreviation lbpRects := (DetectMultiScale w lbpFaceCascade (grayOf f)).

(** A projection that ignores the calls on the vision library sees the
    calls from [gocv.IMEncode] on only. *)
Lemma calls_proj_response {A : Type} (P : Call -> list A) :
  (forall c, isVisionCall c = true -> P c = []) ->
  P CallRead = [] ->
  flat_map P (calls w) = flat_map P (snd (respond w (annotated w f))).
Proof.
  intros Hvision Hr. rewrite (calls_read_ok w f Hread).
  cbn [flat_map]. rewrite Hr, !Hvision by done. cbn [app].
  rewrite flat_map_app. cbn [flat_map]. rewrite Hvision by done.
  rewrite flat_map_app. cbn [app].
  rewrite (flat_map_none P (snd (haarLoop w haarRects (gocv.Captured f))))
    by (intros c Hc; apply Hvision; by apply haarLoop_vision in Hc).
  rewrite (flat_map_none P (flat_map lbpCalls lbpRects))
    by (intros c Hc; apply Hvision; by apply lbpCalls_vision in Hc).
  reflexivity.
Qed.

(** A projection that ignores every other call sees the calls of the two
    passes only. *)
Lemma calls_proj_vision {A : Type} (P : Call -> list A) :
  (forall c, isVisionCall c = false -> P c = []) ->
  flat_map P (calls w) =
    P (CallCvtColor (gocv.Captured f) gocv.ColorBGRToGray) ++
    P (CallDetectMultiScale haarFaceCascade (grayOf f)) ++
    flat_map P (snd (haarLoop w haarRects (gocv.Captured f))) ++
    P (CallDetectMultiScale lbpFaceCascade (grayOf f)) ++
    flat_map P (flat_map lbpCalls lbpRects).
Proof.
  intros Hother. rewrite (calls_read_ok w f Hread).
  cbn [flat_map]. rewrite (Hother CallRead) by done. cbn [app].
  rewrite flat_map_app. cbn [flat_map]. rewrite flat_map_app.
  rewrite (flat_map_none P (snd (respond w (annotated w f))))
    by (intros c Hc; apply Hother; by apply respond_not_vision in Hc).
  by rewrite app_nil_r.
Qed.

End Projections.

(** The three ways through [respond]. *)
Lemma respond_cases (w : World) (m : gocv.Mat) :
  (exists e, IMEncode w ".jpg" m = Err e /\
     respond w m =
       (emptyResponse,
        [CallIMEncode ".jpg" m; CallPrint ("Error encoding frame: " +:+ e +:+ newline)])) \/
  (exists buf e, IMEncode w ".jpg" m = Ok buf /\ image_Decode w buf = Err e /\
     respond w m =
       (emptyResponse,
        [CallIMEncode ".jpg" m; CallDecode buf;
         CallPrint ("Error decoding frame: " +:+ e +:+ newline)])) \/
  (exists buf out, IMEncode w ".jpg" m = Ok buf /\ image_Decode w buf = Ok out /\
     respond w m =
       (mkResponse {["Content-Type" := ["image/jpeg"]]} (fst (jpeg_Encode w out None)),
        [CallIMEncode ".jpg" m; CallDecode buf;
         CallHeaderSet "Content-Type" "image/jpeg"; CallJpegEncode out None] ++
        match snd (jpeg_Encode w out None) with
        | Some e => [CallPrint ("Error writing image to response: " +:+ e +:+ newline)]
        | None => []
        end)).
Proof.
  destruct (IMEncode w ".jpg" m) as [buf|e] eqn:E1.
  - destruct (image_Decode w buf) as [out|e] eqn:E2.
    + right. right. exists buf, out. split_and!; [done..|]. by apply respond_decoded.
    + right. left. exists buf, e. split_and!; [done..|]. by apply respond_decode_error.
  - left. exists e. split; [done|]. by apply respond_encode_error.
Qed.

(** X7: the frame given to the encoder is the captured frame with exactly
    the rectangles and labels of the calls of the request drawn onto it,
    in the order of the calls; [gocv.IMEncode] is called once per request,
    on that frame, with the extension ".jpg". *)
Theorem encoder_given_frame_with_all_drawings (w : World) (f : gocv.Frame) :
  webcam_Read w = Some f ->
  drawAll (calls w) (gocv.Captured f) = annotated w f /\
  encoded (calls w) = [annotated w f] /\
  (forall ext m, In (CallIMEncode ext m) (calls w) -> ext = ".jpg"%string).
Proof.
  intros Hread. split_and!.
  - assert (Hann : annotated w f =
              drawAll (flat_map lbpCalls (DetectMultiScale w lbpFaceCascade (grayOf f)))
                (drawAll (snd (haarLoop w (DetectMultiScale w haarFaceCascade (grayOf f))
                                 (gocv.Captured f))) (gocv.Captured f)))
      by (by rewrite annotated_loops, lbpLoop_drawAll, haarLoop_drawAll).
    pose proof (drawAll_not_vision (snd (respond w (annotated w f))) (annotated w f)
                  (fun c => respond_not_vision w _ c)) as Hresp.
    unfold drawAll in *. rewrite (calls_read_ok w f Hread).
    cbn [fold_left drawCall]. rewrite fold_left_app.
    cbn [fold_left drawCall]. rewrite fold_left_app.
    rewrite <- Hann. exact Hresp.
  - unfold encoded. rewrite (calls_proj_response w f Hread) by (try intros []; done).
    destruct (respond_cases w (annotated w f))
      as [(e & _ & ->)|[(buf & e & _ & _ & ->)|(buf & out & _ & _ & ->)]];
      cbn [snd]; [done..|].
    by destruct (snd (jpeg_Encode w out None)).
  - intros ext m Hin.
    by_pass Hin Hread r m' Hr Hincl Hdrawn; try discriminate Hin.
    + apply haarBody_vision in Hin. discriminate Hin.
    + apply in_lbpCalls in Hin. destruct Hin as [E|E]; discriminate E.
    + destruct (respond_cases w (annotated w f))
        as [(e & _ & E)|[(buf & e & _ & _ & E)|(buf & out & _ & _ & E)]];
        rewrite E in Hin; cbn [snd] in Hin.
      * destruct Hin as [H|[H|[]]]; [by injection H|discriminate H].
      * destruct Hin as [H|[H|[H|[]]]]; [by injection H|discriminate H..].
      * apply in_app_or in Hin. destruct Hin as [Hin|Hin].
        -- destruct Hin as [H|[H|[H|[H|[]]]]]; [by injection H|discriminate H..].
        -- destruct (snd (jpeg_Encode w out None)); [|destruct Hin].
           destruct Hin as [H|[]]. discriminate H.
Qed.

Lemma encoder_given_frame_with_all_drawings_witness :
  drawAll (calls sampleWorld) (gocv.Captured frame0) = annotated sampleWorld frame0 /\
  encoded (calls sampleWorld) = [annotated sampleWorld frame0].
Proof.
  pose proof (encoder_given_frame_with_all_drawings sampleWorld frame0 eq_refl)
    as (Hdraw & Henc & _).
  split; [exact Hdraw|exact Henc].
Defined.

(** ** Projections of the two loops *)

Lemma proj_lbpCalls {A : Type} (P : Call -> list A) (rects : list Rectangle) :
  flat_map P (flat_map lbpCalls rects) =
    flat_map (fun r => P (CallRectangle r red 2) ++
                       P (CallPutText (sizeText r) (textOrg r) font 1 red 2)) rects.
Proof.
  induction rects as [|r rects IH]; [done|].
  cbn [flat_map]. rewrite flat_map_app, IH. cbn [lbpCalls flat_map].
  by rewrite app_nil_r.
Qed.

Lemma proj_eyeCalls {A : Type} (P : Call -> list A) (r : Rectangle) (eyes : list Rectangle) :
  flat_map P (map (eyeCall r) eyes) =
    flat_map (fun e => P (CallRectangle (offsetEye r e) blue 2)) eyes.
Proof. induction eyes as [|e eyes IH]; [done|]. simpl. by rewrite IH. Qed.

Lemma proj_haarBody {A : Type} (P : Call -> list A) (w : World) (r : Rectangle)
  (m : gocv.Mat) :
  let roiMat := gocv.Region (gocv.PutText (gocv.Rectangle m r green 2)
                               (sizeText r) (textOrg r) font 1 green 2) r in
  flat_map P (snd (haarBody w r m)) =
    if faceSizeOk r then
      P (CallRectangle r green 2) ++
      P (CallPutText (sizeText r) (textOrg r) font 1 green 2) ++
      P (CallRegion r) ++
      P (CallDetectMultiScale eyeCascade roiMat) ++
      flat_map (fun e => P (CallRectangle (offsetEye r e) blue 2))
               (DetectMultiScale w eyeCascade roiMat)
    else [].
Proof.
  cbv zeta. destruct (faceSizeOk r) eqn:Hok.
  - rewrite (haarBody_accept w r m Hok). cbv zeta.
    rewrite flat_map_app, proj_eyeCalls. cbn [flat_map].
    by rewrite <- !app_assoc, app_nil_l.
  - by rewrite (haarBody_reject w r m Hok).
Qed.

Lemma flat_map_nil_fun {A B : Type} (l : list A) :
  flat_map (fun _ : A => @nil B) l = [].
Proof. by induction l. Qed.

(** ** How often each collaborator is called *)

Lemma classifiers_distinct :
  haarFaceCascade <> eyeCascade /\ haarFaceCascade <> lbpFaceCascade /\
  eyeCascade <> lbpFaceCascade.
Proof. split_and!; discriminate. Qed.

(** Decides the tests [decide (c = c')] of a projection on known colours
    and classifiers. *)
Ltac decide_calls :=
  cbn beta iota;
  repeat (case_decide; try done; try discriminate; try congruence).

Lemma respond_no_read (w : World) (m : gocv.Mat) : ~ In CallRead (snd (respond w m)).
Proof.
  destruct (respond_cases w m)
    as [(e & _ & ->)|[(buf & e & _ & _ & ->)|(buf & out & _ & _ & ->)]]; cbn [snd].
  - intros H. repeat (destruct H as [H|H]; [discriminate H|]). destruct H.
  - intros H. repeat (destruct H as [H|H]; [discriminate H|]). destruct H.
  - rewrite in_app_iff. intros [H|H].
    + repeat (destruct H as [H|H]; [discriminate H|]). destruct H.
    + destruct (snd (jpeg_Encode w out None)); [|destruct H].
      destruct H as [H|[]]. discriminate H.
Qed.

Lemma reads_of_calls (w : World) : reads (calls w) = 1%nat.
Proof.
  unfold reads. destruct (webcam_Read w) as [f|] eqn:Hread.
  - rewrite (calls_read_ok w f Hread). cbn [flat_map app length]. f_equal.
    rewrite flat_map_app. cbn [flat_map app]. rewrite flat_map_app.
    rewrite !flat_map_none; [done|..].
    + intros c Hc. destruct c; try done. by apply respond_no_read in Hc.
    + intros c Hc. by apply lbpCalls_vision in Hc; destruct c.
    + intros c Hc. by apply haarLoop_vision in Hc; destruct c.
  - unfold calls, handleRequest. rewrite Hread. reflexivity.
Qed.

(** X8: a request reads the device exactly once, whether or not the read
    succeeds.  When it succeeds, the frame is converted to grayscale once,
    before anything is drawn on it, and each of the two face classifiers is
    run exactly once, on that one-channel copy. *)
Theorem face_classifiers_run_once_on_gray_copy (w : World) :
  reads (calls w) = 1%nat /\
  forall f, webcam_Read w = Some f ->
    converted (calls w) = [gocv.Captured f] /\
    runsOf haarFaceCascade (calls w) = [grayOf f] /\
    runsOf lbpFaceCascade (calls w) = [grayOf f] /\
    gocv.Channels (grayOf f) = 1.
Proof.
  split; [apply reads_of_calls|]. intros f Hread. split_and!.
  - unfold converted. rewrite (calls_proj_vision w f Hread) by (by intros []).
    rewrite proj_lbpCalls.
    rewrite (flat_map_haarLoop _ (fun _ => []))
      by (intros r m; rewrite proj_haarBody; cbv zeta; destruct (faceSizeOk r);
          [apply flat_map_nil_fun|done]).
    cbn beta iota. cbn [app]. rewrite !flat_map_nil_fun. by cbn [app].
  - unfold runsOf. rewrite (calls_proj_vision w f Hread) by (by intros []).
    rewrite proj_lbpCalls.
    rewrite (flat_map_haarLoop _ (fun _ => []))
      by (intros r m; rewrite proj_haarBody; cbv zeta; destruct (faceSizeOk r);
          [decide_calls; apply flat_map_nil_fun|done]).
    decide_calls. cbn [app]. rewrite !flat_map_nil_fun. by cbn [app].
  - unfold runsOf. rewrite (calls_proj_vision w f Hread) by (by intros []).
    rewrite proj_lbpCalls.
    rewrite (flat_map_haarLoop _ (fun _ => []))
      by (intros r m; rewrite proj_haarBody; cbv zeta; destruct (faceSizeOk r);
          [decide_calls; apply flat_map_nil_fun|done]).
    decide_calls. cbn [app]. rewrite !flat_map_nil_fun. by cbn [app].
  - reflexivity.
Qed.

Lemma face_classifiers_run_once_on_gray_copy_witness :
  runsOf haarFaceCascade (calls sampleWorld) = [grayOf frame0] /\
  runsOf lbpFaceCascade (calls sampleWorld) = [grayOf frame0].
Proof.
  pose proof (face_classifiers_run_once_on_gray_copy sampleWorld) as (_ & H).
  destruct (H frame0 eq_refl) as (_ & Hhaar & Hlbp & _).
  split; [exact Hhaar|exact Hlbp].
Defined.

(** ** What is drawn, in which order and how often *)

(** X9: the boxes outlined in green are exactly the Haar candidates that
    pass the size test, in the order the classifier returned them and as
    often as it returned them; each gets one green label, with its size at
    [(Min.X, Min.Y - 10)], and one region is taken for each.  The boxes
    outlined and labelled in red are exactly the LBP boxes, in order, none
    left out and none merged. *)
Theorem faces_drawn_once_each_in_detector_order (w : World) (f : gocv.Frame) :
  webcam_Read w = Some f ->
  let haarRects := DetectMultiScale w haarFaceCascade (grayOf f) in
  let lbpRects := DetectMultiScale w lbpFaceCascade (grayOf f) in
  let label := fun r => (sizeText r, textOrg r) in
  outlined green (calls w) = accepted haarRects /\
  labelled green (calls w) = map label (accepted haarRects) /\
  regions (calls w) = accepted haarRects /\
  outlined red (calls w) = lbpRects /\
  labelled red (calls w) = map label lbpRects.
Proof.
  intros Hread haarRects lbpRects label. subst haarRects lbpRects label.
  unfold accepted. rewrite <- !flat_map_filter. split_and!.
  - unfold outlined. rewrite (calls_proj_vision w f Hread) by (by intros []).
    rewrite proj_lbpCalls.
    rewrite (flat_map_haarLoop _ (fun r => if faceSizeOk r then [r] else []))
      by (intros r m; rewrite proj_haarBody; cbv zeta; destruct (faceSizeOk r);
          [decide_calls; cbn [app]; by rewrite flat_map_nil_fun|done]).
    decide_calls. cbn [app]. rewrite flat_map_nil_fun. by rewrite app_nil_r.
  - unfold labelled. rewrite (calls_proj_vision w f Hread) by (by intros []).
    rewrite proj_lbpCalls.
    rewrite (flat_map_haarLoop _
               (fun r => if faceSizeOk r then [(sizeText r, textOrg r)] else []))
      by (intros r m; rewrite proj_haarBody; cbv zeta; destruct (faceSizeOk r);
          [decide_calls; cbn [app]; by rewrite flat_map_nil_fun|done]).
    decide_calls. cbn [app]. rewrite flat_map_nil_fun, app_nil_r.
    induction (DetectMultiScale w haarFaceCascade (grayOf f)) as [|r rects IH]; [done|].
    cbn [flat_map map]. destruct (faceSizeOk r); cbn [app map]; by rewrite IH.
  - unfold regions. rewrite (calls_proj_vision w f Hread) by (by intros []).
    rewrite proj_lbpCalls.
    rewrite (flat_map_haarLoop _ (fun r => if faceSizeOk r then [r] else []))
      by (intros r m; rewrite proj_haarBody; cbv zeta; destruct (faceSizeOk r);
          [cbn beta iota; cbn [app]; by rewrite flat_map_nil_fun|done]).
    cbn beta iota. cbn [app]. rewrite flat_map_nil_fun. by rewrite app_nil_r.
  - unfold outlined. rewrite (calls_proj_vision w f Hread) by (by intros []).
    rewrite proj_lbpCalls.
    rewrite (flat_map_haarLoop _ (fun _ => []))
      by (intros r m; rewrite proj_haarBody; cbv zeta; destruct (faceSizeOk r);
          [decide_calls; cbn [app]; by rewrite flat_map_nil_fun|done]).
    decide_calls. cbn [app]. rewrite flat_map_nil_fun. cbn [app].
    induction (DetectMultiScale w lbpFaceCascade (grayOf f)) as [|r rects IH]; [done|].
    cbn [flat_map app]. by rewrite IH.
  - unfold labelled. rewrite (calls_proj_vision w f Hread) by (by intros []).
    rewrite proj_lbpCalls.
    rewrite (flat_map_haarLoop _ (fun _ => []))
      by (intros r m; rewrite proj_haarBody; cbv zeta; destruct (faceSizeOk r);
          [decide_calls; cbn [app]; by rewrite flat_map_nil_fun|done]).
    decide_calls. cbn [app]. rewrite flat_map_nil_fun. cbn [app].
    induction (DetectMultiScale w lbpFaceCascade (grayOf f)) as [|r rects IH]; [done|].
    cbn [flat_map app map]. by rewrite IH.
Qed.

Lemma faces_drawn_once_each_in_detector_order_witness :
  outlined green (calls sampleWorld) = [face250] /\
  outlined red (calls sampleWorld) = [lbp270; lbp20].
Proof.
  pose proof (faces_drawn_once_each_in_detector_order sampleWorld frame0 eq_refl)
    as (Hgreen & _ & _ & Hred & _).
  split; [exact Hgreen|exact Hred].
Defined.

(** ** The eye search *)

Lemma eyeRuns_app (m : gocv.Mat) (l1 l2 : list Call) :
  eyeRunsSeeDrawings m (l1 ++ l2) <->
  eyeRunsSeeDrawings m l1 /\ eyeRunsSeeDrawings (drawAll l1 m) l2.
Proof.
  revert m. induction l1 as [|c l1 IH]; intros m; simpl; [tauto|].
  rewrite IH. tauto.
Qed.

Lemma eyeRuns_no_run (m : gocv.Mat) (l : list Call) :
  runsOf eyeCascade l = [] -> eyeRunsSeeDrawings m l.
Proof.
  revert m. induction l as [|c l IH]; intros m; [done|].
  unfold runsOf. cbn [flat_map]. intros H. apply app_eq_nil in H. destruct H as [Hc Hl].
  split; [|by apply IH].
  destruct c; try done. intros ->. by rewrite decide_True in Hc.
Qed.

Lemma haarBody_eyeRuns (w : World) (r : Rectangle) (m : gocv.Mat) :
  eyeRunsSeeDrawings m (snd (haarBody w r m)).
Proof.
  destruct (faceSizeOk r) eqn:Hok.
  - rewrite (haarBody_accept w r m Hok). cbv zeta.
    apply eyeRuns_app. split.
    + simpl. tauto.
    + apply eyeRuns_no_run. unfold runsOf. rewrite proj_eyeCalls.
      cbn beta iota. apply flat_map_nil_fun.
  - by rewrite (haarBody_reject w r m Hok).
Qed.

Lemma haarLoop_eyeRuns (w : World) (rects : list Rectangle) (m : gocv.Mat) :
  eyeRunsSeeDrawings m (snd (haarLoop w rects m)).
Proof.
  revert m. induction rects as [|r rects IH]; intros m; simpl; [done|].
  pose proof (haarBody_eyeRuns w r m) as Hb.
  pose proof (haarBody_drawAll w r m) as Hd.
  destruct (haarBody w r m) as [m1 cs1].
  specialize (IH m1). destruct (haarLoop w rects m1) as [m2 cs2]. simpl in *.
  apply eyeRuns_app. split; [done|]. by rewrite <- Hd.
Qed.

(** The eye runs of the Haar loop and the boxes outlined in blue. *)
Lemma haarLoop_eyes (w : World) (rects : list Rectangle) (m : gocv.Mat) :
  map roiOf (runsOf eyeCascade (snd (haarLoop w rects m))) = map Some (accepted rects) /\
  outlined blue (snd (haarLoop w rects m)) =
    flat_map (eyesOf w) (runsOf eyeCascade (snd (haarLoop w rects m))).
Proof.
  revert m. induction rects as [|r rects IH]; intros m; simpl; [done|].
  assert (Hbody :
    map roiOf (runsOf eyeCascade (snd (haarBody w r m))) =
      (if faceSizeOk r then [Some r] else []) /\
    outlined blue (snd (haarBody w r m)) =
      flat_map (eyesOf w) (runsOf eyeCascade (snd (haarBody w r m)))).
  { unfold runsOf, outlined. rewrite !proj_haarBody. cbv zeta.
    destruct (faceSizeOk r); [|done]. decide_calls. cbn [app].
    rewrite flat_map_nil_fun. cbn [app flat_map map roiOf eyesOf].
    rewrite app_nil_r. split; [done|].
    match goal with |- flat_map _ ?l = map _ ?l => induction l as [|e es IHes] end;
      [done|]. cbn [flat_map map app]. by rewrite IHes. }
  destruct Hbody as (Hb1 & Hb2).
  destruct (haarBody w r m) as [m1 cs1].
  specialize (IH m1). destruct IH as (IH1 & IH2).
  destruct (haarLoop w rects m1) as [m2 cs2]. simpl in *.
  unfold runsOf, outlined, accepted in *. rewrite !flat_map_app, map_app.
  rewrite Hb1, IH1, Hb2, IH2. split; [|done].
  cbn [List.filter]. by destruct (faceSizeOk r).
Qed.

(** X10: the eye classifier is run once for every accepted Haar face, in
    order, on a region bounded by that face, and never otherwise.  Every
    such region is a view of the colour frame exactly as drawn on by the
    calls made before the run, so it carries the outline and label of its
    own face and the drawings of all earlier faces and eyes.  The boxes
    outlined in blue are exactly the boxes these runs returned, offset by
    the origin of their face, in order; no label is blue. *)
Theorem eyes_searched_once_per_accepted_face (w : World) (f : gocv.Frame) :
  webcam_Read w = Some f ->
  let eyeRuns := runsOf eyeCascade (calls w) in
  map roiOf eyeRuns = map Some (accepted (DetectMultiScale w haarFaceCascade (grayOf f))) /\
  eyeRunsSeeDrawings (gocv.Captured f) (calls w) /\
  outlined blue (calls w) = flat_map (eyesOf w) eyeRuns /\
  labelled blue (calls w) = [].
Proof.
  intros Hread eyeRuns. subst eyeRuns.
  destruct (haarLoop_eyes w (DetectMultiScale w haarFaceCascade (grayOf f))
              (gocv.Captured f)) as (Hruns & Hblue).
  assert (Eruns : runsOf eyeCascade (calls w) =
            runsOf eyeCascade
              (snd (haarLoop w (DetectMultiScale w haarFaceCascade (grayOf f))
                      (gocv.Captured f)))).
  { unfold runsOf. rewrite (calls_proj_vision w f Hread) by (by intros []).
    rewrite proj_lbpCalls. decide_calls. cbn [app].
    by rewrite flat_map_nil_fun, app_nil_r. }
  split_and!.
  - by rewrite Eruns.
  - rewrite (calls_read_ok w f Hread).
    change (CallRead :: ?a :: ?b :: ?l) with ([CallRead; a; b] ++ l).
    apply eyeRuns_app. split; [simpl; split_and!; try done; discriminate|].
    apply eyeRuns_app. split; [apply haarLoop_eyeRuns|].
    apply eyeRuns_no_run. unfold runsOf. cbn [flat_map]. decide_calls. cbn [app].
    rewrite flat_map_app, proj_lbpCalls. cbn beta iota. cbn [app].
    rewrite flat_map_nil_fun. cbn [app].
    apply flat_map_none. intros c Hc. apply respond_not_vision in Hc. by destruct c.
  - rewrite Eruns, <- Hblue.
    unfold outlined. rewrite (calls_proj_vision w f Hread) by (by intros []).
    rewrite proj_lbpCalls. decide_calls. cbn [app].
    by rewrite flat_map_nil_fun, app_nil_r.
  - unfold labelled. rewrite (calls_proj_vision w f Hread) by (by intros []).
    rewrite proj_lbpCalls.
    rewrite (flat_map_haarLoop _ (fun _ => []))
      by (intros r m; rewrite proj_haarBody; cbv zeta; destruct (faceSizeOk r);
          [decide_calls; cbn [app]; by rewrite flat_map_nil_fun|done]).
    decide_calls. cbn [app]. rewrite !flat_map_nil_fun. by cbn [app].
Qed.

Lemma eyes_searched_once_per_accepted_face_witness :
  map roiOf (runsOf eyeCascade (calls sampleWorld)) = [Some face250] /\
  outlined blue (calls sampleWorld) = [box 150 160 190 200].
Proof.
  pose proof (eyes_searched_once_per_accepted_face sampleWorld frame0 eq_refl)
    as (Hruns & _ & Hblue & _).
  split; [exact Hruns|]. rewrite Hblue. vm_compute. reflexivity.
Defined.

(** ** The stages of the response *)

Lemma frameDecoded_inv (w : World) (f : gocv.Frame) :
  webcam_Read w = Some f ->
  frameDecoded w <->
  exists buf out, IMEncode w ".jpg" (annotated w f) = Ok buf /\ image_Decode w buf = Ok out.
Proof.
  intros Hread. split.
  - intros (f' & buf & out & Hr & He & Hd). rewrite Hread in Hr. injection Hr as <-. eauto.
  - intros (buf & out & He & Hd). exists f, buf, out. done.
Qed.

Lemma calls_read_failed (w : World) :
  webcam_Read w = None ->
  handleRequest w =
    (emptyResponse, [CallRead; CallPrint ("Device closed: 0" +:+ newline)]).
Proof. intros Hread. unfold handleRequest. by rewrite Hread. Qed.

(** X11: the handler goes through reading, encoding, decoding and writing
    in this order and stops at the first stage that fails, without trying
    it again.  The Content-Type header is set exactly when the frame was
    read, encoded and decoded; in every other case the response is left
    with no header and an empty body.  The buffer is decoded at most once
    and [jpeg.Encode] is called at most once, always with [nil] options. *)
Theorem response_stages_stop_at_first_failure (w : World) :
  (Header (response w) !! "Content-Type" = Some ["image/jpeg"] <-> frameDecoded w) /\
  (~ frameDecoded w -> response w = emptyResponse) /\
  (Body (response w) <> [] -> frameDecoded w) /\
  (length (encoded (calls w)) <= 1)%nat /\
  (length (decoded (calls w)) <= 1)%nat /\
  (length (written (calls w)) <= 1)%nat /\
  (decoded (calls w) <> [] -> encoded (calls w) <> []) /\
  (written (calls w) <> [] <-> frameDecoded w) /\
  (forall m o, In (CallJpegEncode m o) (calls w) -> o = None).
Proof.
  destruct (webcam_Read w) as [f|] eqn:Hread.
  - rewrite (frameDecoded_inv w f Hread).
    assert (Hjpeg : forall m o, In (CallJpegEncode m o) (calls w) ->
                                In (CallJpegEncode m o) (snd (respond w (annotated w f)))).
    { intros m o Hin. by_pass Hin Hread r m' Hr Hincl Hdrawn; try discriminate Hin.
      - apply haarBody_vision in Hin. discriminate Hin.
      - apply in_lbpCalls in Hin. destruct Hin as [E|E]; discriminate E.
      - exact Hin. }
    unfold encoded, decoded, written.
    rewrite !(calls_proj_response w f Hread) by (try intros []; done).
    rewrite (response_read_ok w f Hread).
    destruct (respond_cases w (annotated w f))
      as [(e & He & E)|[(buf & e & He & Hd & E)|(buf & out & He & Hd & E)]].
    + rewrite E in *. cbn [fst snd Header Body flat_map app length].
      split_and!; try done; try lia.
      * split; [done|]. intros (buf & out & He' & _). congruence.
      * split; [done|]. intros (buf & out & He' & _). congruence.
      * intros m o Hin. apply Hjpeg in Hin. cbn in Hin.
        destruct Hin as [H|[H|[]]]; discriminate H.
    + rewrite E in *. cbn [fst snd Header Body flat_map app length].
      split_and!; try done; try lia.
      * split; [done|]. intros (buf' & out & He' & Hd'). congruence.
      * split; [done|]. intros (buf' & out & He' & Hd'). congruence.
      * intros m o Hin. apply Hjpeg in Hin. cbn in Hin.
        destruct Hin as [H|[H|[H|[]]]]; discriminate H.
    + assert (Hdec : exists buf out,
                IMEncode w ".jpg" (annotated w f) = Ok buf /\ image_Decode w buf = Ok out)
        by eauto.
      destruct (snd (jpeg_Encode w out None)) as [e|];
        rewrite E in *; cbn [fst snd Header Body flat_map app length];
        (split_and!; try done; try lia;
         intros m o Hin; apply Hjpeg in Hin; cbn in Hin;
         repeat (destruct Hin as [Hin|Hin]; [try discriminate Hin; by injection Hin|]);
         destruct Hin).
  - assert (Hnot : ~ frameDecoded w).
    { intros (f & buf & out & Hr & _). congruence. }
    unfold response, calls. rewrite (calls_read_failed w Hread).
    cbn [fst snd]. split_and!; try done; try (cbn; lia).
    + intros m o [H|[H|[]]]; discriminate H.
Qed.

Lemma response_stages_stop_at_first_failure_witness :
  response decodeFailWorld = emptyResponse /\ response closedWorld = emptyResponse.
Proof.
  pose proof (response_stages_stop_at_first_failure decodeFailWorld) as (_ & Hdec & _).
  pose proof (response_stages_stop_at_first_failure closedWorld) as (_ & Hclosed & _).
  split.
  - apply Hdec. intros (f & buf & out & _ & _ & Hd). discriminate Hd.
  - apply Hclosed. intros (f & buf & out & Hr & _). discriminate Hr.
Defined.

(** ** What is printed *)

(** X12: a request prints at most one line, and it prints none exactly when
    the frame was read, encoded, decoded and written without error: every
    failure is reported once, on the console only. *)
Theorem one_line_printed_per_failure (w : World) :
  (length (printed (calls w)) <= 1)%nat /\
  (printed (calls w) = [] <-> requestSucceeds w) /\
  (webcam_Read w = None -> printed (calls w) = ["Device closed: 0" +:+ newline]).
Proof.
  destruct (webcam_Read w) as [f|] eqn:Hread.
  - assert (Hs : requestSucceeds w <->
              exists buf out, IMEncode w ".jpg" (annotated w f) = Ok buf /\
                              image_Decode w buf = Ok out /\
                              snd (jpeg_Encode w out None) = None).
    { split.
      - intros (f' & buf & out & Hr & H). rewrite Hread in Hr. injection Hr as <-. eauto.
      - intros (buf & out & H). exists f, buf, out. done. }
    rewrite Hs. unfold printed.
    rewrite (calls_proj_response w f Hread) by (try intros []; done).
    destruct (respond_cases w (annotated w f))
      as [(e & He & E)|[(buf & e & He & Hd & E)|(buf & out & He & Hd & E)]].
    + rewrite E. cbn [snd flat_map app length]. split_and!; [lia| |done].
      split; [done|]. intros (buf & out & He' & _). congruence.
    + rewrite E. cbn [snd flat_map app length]. split_and!; [lia| |done].
      split; [done|]. intros (buf' & out & He' & Hd' & _). congruence.
    + rewrite E. destruct (snd (jpeg_Encode w out None)) as [e|] eqn:Hj;
        cbn [snd flat_map app length]; (split_and!; [lia| |done]).
      * split; [done|]. intros (buf' & out' & He' & Hd' & Hj'). congruence.
      * split; [intros _; eauto|done].
  - unfold calls. rewrite (calls_read_failed w Hread). cbn. split_and!; [lia| |done].
    split; [done|]. intros (f & buf & out & Hr & _). congruence.
Qed.

Lemma one_line_printed_per_failure_witness :
  printed (calls closedWorld) = ["Device closed: 0" +:+ newline].
Proof.
  pose proof (one_line_printed_per_failure closedWorld) as (_ & _ & H).
  exact (H eq_refl).
Defined.

(** ** Sizes and labels *)

Lemma wrap_sub_wrap (x y : Z) : goint.wrap (goint.wrap x - goint.wrap y) = goint.wrap (x - y).
Proof.
  unfold goint.wrap.
  rewrite (Z.mod_eq (x + 2 ^ 63) (2 ^ 64)), (Z.mod_eq (y + 2 ^ 63) (2 ^ 64)) by lia.
  f_equal.
  replace (x + 2 ^ 63 - 2 ^ 64 * ((x + 2 ^ 63) `div` 2 ^ 64) - 2 ^ 63 -
           (y + 2 ^ 63 - 2 ^ 64 * ((y + 2 ^ 63) `div` 2 ^ 64) - 2 ^ 63) + 2 ^ 63)
    with (x - y + 2 ^ 63 +
          ((y + 2 ^ 63) `div` 2 ^ 64 - (x + 2 ^ 63) `div` 2 ^ 64) * 2 ^ 64) by lia.
  apply Z_mod_plus_full.
Qed.

Lemma offsetEye_Size (r e : Rectangle) : Size (offsetEye r e) = Size e.
Proof.
  rewrite offsetEye_fields. unfold Size, goint.sub, goint.add. simpl.
  rewrite !wrap_sub_wrap. f_equal; f_equal; lia.
Qed.

(** X13: offsetting an eye box by the origin of its face never changes its
    width and height, as [Size] computes them, even when an addition wraps:
    every box outlined in blue has the size of the box the eye classifier
    returned for it. *)
Theorem eye_box_keeps_its_size (w : World) (f : gocv.Frame) (g : Rectangle) (th : Z) :
  webcam_Read w = Some f ->
  In (CallRectangle g blue th) (calls w) ->
  exists r m e,
    In (CallDetectMultiScale eyeCascade (gocv.Region m r)) (calls w) /\
    In e (DetectMultiScale w eyeCascade (gocv.Region m r)) /\
    g = offsetEye r e /\
    Size g = Size e /\ sizeText g = sizeText e.
Proof.
  intros Hread Hin.
  destruct (blue_rectangle_origin w f g th Hread Hin)
    as (r & m & e & _ & _ & Hcall & He & -> & _).
  exists r, m, e. split_and!; try done.
  - apply offsetEye_Size.
  - unfold sizeText. by rewrite offsetEye_Size.
Qed.

Lemma eye_box_keeps_its_size_witness :
  exists r m e,
    In (CallDetectMultiScale eyeCascade (gocv.Region m r)) (calls sampleWorld) /\
    In e (DetectMultiScale sampleWorld eyeCascade (gocv.Region m r)) /\
    box 150 160 190 200 = offsetEye r e /\
    Size (box 150 160 190 200) = Size e /\ sizeText (box 150 160 190 200) = sizeText e.
Proof.
  apply (eye_box_keeps_its_size sampleWorld frame0 (box 150 160 190 200) 2 eq_refl).
  vm_compute. auto 20.
Defined.

(** X14: the size label tells the size: two boxes get the same label text
    exactly when [Size] gives them the same width and the same height. *)
Theorem size_label_determines_size (r r' : Rectangle) :
  sizeText r = sizeText r' <-> Size r = Size r'.
Proof.
  split; [apply sizeText_inj|]. unfold sizeText. by intros ->.
Qed.

Lemma size_label_determines_size_witness :
  sizeText face250 = sizeText (box 0 0 250 250) /\
  Size lbp270 = Size (box 0 0 270 275).
Proof.
  split.
  - apply (size_label_determines_size face250 (box 0 0 250 250)). vm_compute. reflexivity.
  - apply (size_label_determines_size lbp270 (box 0 0 270 275)). vm_compute. reflexivity.
Defined.

(** X15: for a well-formed box, with [int] coordinates and [Min] not after
    [Max], the size test of the Haar pass is a test on the true width
    [Max.X - Min.X]: wrap-around in [Size] cannot let a box pass whose true
    width is not strictly between [minFaceSize] and [maxFaceSize], nor
    reject one whose width is.  The height plays no part. *)
Theorem size_test_is_on_true_width (r : Rectangle) :
  wellFormed r ->
  (faceSizeOk r = true <-> minFaceSize < X (Max r) - X (Min r) < maxFaceSize).
Proof.
  intros (HminX & _ & HmaxX & _ & HX & _).
  rewrite faceSizeOk_spec. unfold Size. simpl.
  unfold minFaceSize, maxFaceSize.
  destruct (Z_lt_le_dec (goint.sub (X (Max r)) (X (Min r))) 0) as [Hneg|Hnn].
  - split; [lia|]. intros Hw. exfalso.
    rewrite sub_exact in Hneg; [lia|].
    unfold goint.in_range, goint.min_int, goint.max_int in *. lia.
  - by rewrite (sub_nonneg_exact _ _ HmaxX HminX HX Hnn).
Qed.

Lemma size_test_is_on_true_width_witness :
  faceSizeOk face250 = true <-> minFaceSize < X (Max face250) - X (Min face250) < maxFaceSize.
Proof.
  apply (size_test_is_on_true_width face250).
  vm_compute. repeat split; discriminate.
Defined.

(** ** The order of the passes *)

(** Closes a goal [flat_map P (snd (haarLoop ..)) = []] for a projection
    [P] that is empty on every call of the loop body. *)
Ltac haar_loop_none :=
  rewrite (flat_map_haarLoop _ (fun _ => []))
    by (intros r m; rewrite proj_haarBody; cbv zeta; destruct (faceSizeOk r);
        [decide_calls; cbn [app]; by rewrite ?flat_map_nil_fun|done]);
  apply flat_map_nil_fun.

(** Closes a goal [flat_map P (lbpCalls .. ++ snd (respond ..)) = []]. *)
Ltac lbp_and_response_none :=
  rewrite flat_map_app, proj_lbpCalls; decide_calls; cbn [app];
  rewrite flat_map_nil_fun; cbn [app];
  apply flat_map_none; intros c Hc; apply respond_not_vision in Hc; by destruct c.

(** X16: the two passes do not interleave.  Everything the Haar pass draws,
    green outlines and labels and the blue outlines of the eyes, and every
    region and eye search, comes before the run of the LBP classifier;
    everything drawn in red comes after it, and so lies on top; the frame
    is encoded only after the last drawing. *)
Theorem haar_pass_completes_before_lbp_pass (w : World) (f : gocv.Frame) :
  webcam_Read w = Some f ->
  exists pre post,
    calls w = pre ++ CallDetectMultiScale lbpFaceCascade (grayOf f) :: post /\
    outlined red pre = [] /\ labelled red pre = [] /\ encoded pre = [] /\
    outlined green post = [] /\ labelled green post = [] /\
    outlined blue post = [] /\ regions post = [] /\
    runsOf eyeCascade post = [] /\ runsOf haarFaceCascade post = [] /\
    exists drawing, post = drawing ++ snd (respond w (annotated w f)) /\
                    encoded drawing = [].
Proof.
  intros Hread.
  exists (CallRead :: CallCvtColor (gocv.Captured f) gocv.ColorBGRToGray ::
          CallDetectMultiScale haarFaceCascade (grayOf f) ::
          snd (haarLoop w (DetectMultiScale w haarFaceCascade (grayOf f))
                 (gocv.Captured f))).
  exists (flat_map lbpCalls (DetectMultiScale w lbpFaceCascade (grayOf f)) ++
          snd (respond w (annotated w f))).
  split_and!.
  - rewrite (calls_read_ok w f Hread). reflexivity.
  - unfold outlined. cbn [flat_map app]. haar_loop_none.
  - unfold labelled. cbn [flat_map app]. haar_loop_none.
  - unfold encoded. cbn [flat_map app]. haar_loop_none.
  - unfold outlined. lbp_and_response_none.
  - unfold labelled. lbp_and_response_none.
  - unfold outlined. lbp_and_response_none.
  - unfold regions. lbp_and_response_none.
  - unfold runsOf. lbp_and_response_none.
  - unfold runsOf. lbp_and_response_none.
  - eexists. split; [reflexivity|].
    unfold encoded. rewrite proj_lbpCalls. cbn beta iota. cbn [app].
    apply flat_map_nil_fun.
Qed.

Lemma haar_pass_completes_before_lbp_pass_witness :
  exists pre post,
    calls sampleWorld = pre ++ CallDetectMultiScale lbpFaceCascade (grayOf frame0) :: post /\
    outlined red pre = [] /\ labelled red pre = [] /\ encoded pre = [] /\
    outlined green post = [] /\ labelled green post = [] /\
    outlined blue post = [] /\ regions post = [] /\
    runsOf eyeCascade post = [] /\ runsOf haarFaceCascade post = [] /\
    exists drawing, post = drawing ++ snd (respond sampleWorld (annotated sampleWorld frame0)) /\
                    encoded drawing = [].
Proof.
  exact (haar_pass_completes_before_lbp_pass sampleWorld frame0 eq_refl).
Defined.
